(** * Dataset synchronizer (data_processing.py): model and verification

    The module keeps two PostgreSQL tables in step with a pandas
    DataFrame of question/answer pairs: [faq_embeddings] holds one row
    per pair together with the embedding of the question, [data_hash]
    holds the sha256 fingerprint of the last ingested DataFrame.

    The Python code is embedded shallowly.  Every method of [DBops] is a
    computation in a monad [M] of state, exceptions and output.  The
    state is a [world]: the committed tables, the open transaction of
    the pooled connection, the two SERIAL sequences and an oracle saying
    which storage calls fail.  The output is the trace of observable
    events: statements sent, commits, provider calls, printed lines. *)

From Stdlib Require Import List String Ascii Bool Arith NArith Lia.
From Stdlib Require Import Strings.Byte.
Import ListNotations.

Set Implicit Arguments.

(** ** Python values *)

Definition bytes := list byte.

(** The exceptions that can travel through the module.  All of them
    derive from [Exception], so an [except Exception] clause catches
    each one. *)
Inductive exn : Type :=
| ValueError (msg : string)
| KeyError (key : string)
| AttributeError (msg : string)
| TypeError (msg : string)
| EmbeddingError (msg : string)   (* raised by the embedding provider *)
| DatabaseError (msg : string).   (* psycopg2.Error and its subclasses *)

(** [str(e)], as interpolated by the f-strings of the handlers. *)
Definition exn_str (e : exn) : string :=
  match e with
  | ValueError m | KeyError m | AttributeError m | TypeError m
  | EmbeddingError m | DatabaseError m => m
  end.

(** ** pandas.DataFrame

    A frame is its list of labelled columns, in column order; labels may
    repeat, as pandas allows.  Cells are text. *)
Definition DataFrame := list (string * list string).

(** [df.columns] *)
Definition columns (df : DataFrame) : list string := map fst df.

(** [label in index] *)
Definition index_contains (label : string) (index : list string) : bool :=
  existsb (String.eqb label) index.

(** [df[label].tolist()]: a unique label selects a Series, whose
    [tolist] gives the cells; a repeated label selects a sub-frame, which
    has no [tolist]; an absent label is a [KeyError]. *)
Definition getitem_tolist (df : DataFrame) (label : string) : exn + list string :=
  match filter (fun c => String.eqb label (fst c)) df with
  | [] => inl (KeyError label)
  | [c] => inr (snd c)
  | _ :: _ :: _ =>
      inl (AttributeError "'DataFrame' object has no attribute 'tolist'")
  end.

(** ** Library functions the module calls

    [pickle], [hashlib.sha256] and the numpy float32 conversion are not
    part of the repository; the model takes them as an interface.  The
    only law used is that unpickling a pickled frame gives the frame
    back. *)
Class Externals : Type := {
  float : Type;
  (** [np.array(emb).astype(np.float32).tobytes()] *)
  float32_tobytes : list float -> bytes;
  (** [sha256(content).hexdigest()] *)
  sha256_hexdigest : bytes -> string;
  pickle_dumps : DataFrame -> bytes;
  pickle_loads : bytes -> DataFrame;
  pickle_loads_dumps : forall df, pickle_loads (pickle_dumps df) = df
}.

(** ** The relational store *)

(** A row of [faq_embeddings (id SERIAL PRIMARY KEY, question TEXT,
    answer TEXT, embedding BYTEA)]. *)
Record faq_row : Type := {
  faq_id : nat;
  question : string;
  answer : string;
  embedding : bytes
}.

(** A row of [data_hash (id SERIAL PRIMARY KEY, file_hash TEXT UNIQUE)].
    The column is nullable: [None] is SQL NULL. *)
Record hash_row : Type := {
  hash_id : nat;
  file_hash : option string
}.

Record tables : Type := {
  faq_embeddings : list faq_row;
  data_hash : list hash_row
}.

(** The SQL statements the module sends. *)
Inductive statement : Type :=
| DeleteFaq                                       (* DELETE FROM faq_embeddings *)
| InsertFaq (q a : string) (emb : bytes)          (* INSERT INTO faq_embeddings ... *)
| SelectHashExists (h : option string)            (* SELECT EXISTS(SELECT 1 FROM data_hash WHERE file_hash = %s) *)
| InsertHash (h : option string)                  (* INSERT INTO data_hash ... ON CONFLICT (file_hash) DO NOTHING *)
| DeleteHashes.                                   (* DELETE FROM data_hash *)

(** Statements that change the [data_hash] table. *)
Definition modifies_hash (s : statement) : bool :=
  match s with
  | InsertHash _ | DeleteHashes => true
  | _ => false
  end.

(** Statements that change the [faq_embeddings] table. *)
Definition modifies_faq (s : statement) : bool :=
  match s with
  | DeleteFaq | InsertFaq _ _ _ => true
  | _ => false
  end.

Definition is_write (s : statement) : bool := modifies_faq s || modifies_hash s.

(** [file_hash = h] in SQL: a comparison with NULL is never true. *)
Definition sql_eq (x h : option string) : bool :=
  match x, h with
  | Some a, Some b => String.eqb a b
  | _, _ => false
  end.

(** [EXISTS(SELECT 1 FROM data_hash WHERE file_hash = h)]; it also
    decides the conflict of [ON CONFLICT (file_hash)], since NULLs never
    conflict under UNIQUE. *)
Definition hash_exists (h : option string) (t : tables) : bool :=
  existsb (fun r => sql_eq (file_hash r) h) (data_hash t).

(** Effect of one statement on the tables seen by the transaction.  The
    two numbers are the sequences behind the SERIAL columns; an INSERT
    draws its id before the conflict check, as PostgreSQL does.  The
    last component is the result set (one boolean column). *)
Definition run_statement (s : statement) (t : tables) (fseq hseq : nat)
  : tables * nat * nat * list bool :=
  match s with
  | DeleteFaq =>
      ({| faq_embeddings := []; data_hash := data_hash t |}, fseq, hseq, [])
  | InsertFaq q a emb =>
      ({| faq_embeddings :=
            faq_embeddings t ++
            [{| faq_id := fseq; question := q; answer := a; embedding := emb |}];
          data_hash := data_hash t |}, S fseq, hseq, [])
  | SelectHashExists h => (t, fseq, hseq, [hash_exists h t])
  | InsertHash h =>
      ({| faq_embeddings := faq_embeddings t;
          data_hash :=
            if hash_exists h t then data_hash t
            else data_hash t ++ [{| hash_id := hseq; file_hash := h |}] |},
       fseq, S hseq, [])
  | DeleteHashes =>
      ({| faq_embeddings := faq_embeddings t; data_hash := [] |}, fseq, hseq, [])
  end.

(** ** Observable events *)
Inductive event : Type :=
| EvPrint (line : string)            (* print(...) *)
| EvEmbed (texts : list string)      (* a call of embed_documents *)
| EvExecute (s : statement)          (* a statement accepted by the server *)
| EvCommit (t : tables)              (* a successful commit; [t] is what it made durable *)
| EvFault (msg : string).            (* a storage call raised *)

(** ** The world *)

(** State of the transaction on the pooled connection. *)
Inductive txn_state : Type :=
| Idle                       (* no transaction open *)
| InTxn (work : tables)      (* open; [work] is what the transaction sees *)
| Failed.                    (* aborted by an error, waiting for rollback *)

(** The sequences are not transactional: an id drawn by a transaction
    that is rolled back is not given again. *)
Record world : Type := {
  store : tables;                   (* the committed tables *)
  txn : txn_state;
  faq_seq : nat;                    (* faq_embeddings_id_seq *)
  hash_seq : nat;                   (* data_hash_id_seq *)
  faults : list (option string)     (* outcome of the storage calls to come *)
}.

Definition set_txn (x : txn_state) (w : world) : world :=
  {| store := store w; txn := x; faq_seq := faq_seq w; hash_seq := hash_seq w;
     faults := faults w |}.

Definition set_faults (fs : list (option string)) (w : world) : world :=
  {| store := store w; txn := txn w; faq_seq := faq_seq w; hash_seq := hash_seq w;
     faults := fs |}.

(** ** The monad of Python computations *)

(** What a computation leaves behind: its value or the exception it
    raised, the world after it, and the events it produced, oldest
    first. *)
Record outcome (A : Type) : Type := Outcome {
  result : exn + A;
  final : world;
  trace : list event
}.

Definition M (A : Type) : Type := world -> outcome A.

Definition ret {A} (x : A) : M A := fun w => Outcome (inr x) w [].

Definition raise {A} (e : exn) : M A := fun w => Outcome (inl e) w [].

Definition bind {A B} (m : M A) (k : A -> M B) : M B :=
  fun w =>
    match m w with
    | Outcome (inr x) w1 t1 =>
        match k x w1 with
        | Outcome r w2 t2 => Outcome r w2 (t1 ++ t2)
        end
    | Outcome (inl e) w1 t1 => Outcome (inl e) w1 t1
    end.

Declare Scope py_scope.
Delimit Scope py_scope with py.
Notation "x <- m ;; k" := (bind m (fun x => k))
  (at level 100, m at next level, right associativity) : py_scope.
Notation "m ;; k" := (bind m (fun _ => k))
  (at level 100, right associativity) : py_scope.
Local Open Scope py_scope.

(** [try: body except Exception as e: handler e] *)
Definition try_except {A} (body : M A) (handler : exn -> M A) : M A :=
  fun w =>
    match body w with
    | Outcome (inr x) w1 t1 => Outcome (inr x) w1 t1
    | Outcome (inl e) w1 t1 =>
        match handler e w1 with
        | Outcome r w2 t2 => Outcome r w2 (t1 ++ t2)
        end
    end.

(** [try: body finally: cleanup]: the cleanup runs on every way out of
    the body; an exception of the cleanup replaces the body's result. *)
Definition try_finally {A} (body : M A) (cleanup : M unit) : M A :=
  fun w =>
    match body w with
    | Outcome r w1 t1 =>
        match cleanup w1 with
        | Outcome (inr _) w2 t2 => Outcome r w2 (t1 ++ t2)
        | Outcome (inl e) w2 t2 => Outcome (inl e) w2 (t1 ++ t2)
        end
    end.

Definition emit (e : event) : M unit := fun w => Outcome (inr tt) w [e].

Definition print (line : string) : M unit := emit (EvPrint line).

(** A pure step that may raise. *)
Definition lift {A} (r : exn + A) : M A := fun w => Outcome r w [].

(** ** psycopg2: pool, connection, cursor

    The call chain of the module is sequential and never holds two
    connections at once, so the pool is modelled by the one session it
    hands out.  Each call that reaches the server first consults the
    oracle [faults]: [Some msg] makes the call raise
    [DatabaseError msg]; once the list is used up nothing fails. *)

Inductive connection : Type := Conn.
Inductive cursor : Type := Cursor.

Definition storage_call : M unit :=
  fun w =>
    let w' := set_faults (tl (faults w)) w in
    match hd None (faults w) with
    | None => Outcome (inr tt) w' []
    | Some msg => Outcome (inl (DatabaseError msg)) w' [EvFault msg]
    end.

(** [connection_pool.getconn()]: a connection taken from the pool has
    no transaction open. *)
Definition getconn : M connection :=
  storage_call ;;
  fun w => Outcome (inr Conn) (set_txn Idle w) [].

(** [connection_pool.putconn(conn)]: a connection that comes back with a
    transaction open or aborted is rolled back (or closed, which drops
    the transaction as well). *)
Definition putconn (conn : connection) : M unit :=
  fun w => Outcome (inr tt) (set_txn Idle w) [].

(** [with conn.cursor() as cur: body]; leaving the block only closes
    the cursor. *)
Definition with_cursor {A} (conn : connection) (body : cursor -> M A) : M A :=
  storage_call ;; body Cursor.

(** A storage call inside a transaction: when it raises, the
    transaction is aborted. *)
Definition in_txn_call : M unit :=
  try_except storage_call
    (fun e w => Outcome (inl e) (set_txn Failed w) []).

(** [cur.execute(s)].  The first statement on an idle connection opens
    a transaction on the committed tables.  An aborted transaction
    refuses further statements. *)
Definition execute (cur : cursor) (s : statement) : M (list bool) :=
  in_txn_call ;;
  fun w =>
    match txn w with
    | Failed =>
        Outcome (inl (DatabaseError "current transaction is aborted")) w []
    | st =>
        let work := match st with InTxn t => t | _ => store w end in
        match run_statement s work (faq_seq w) (hash_seq w) with
        | (work', fseq, hseq, rows) =>
            Outcome (inr rows)
              {| store := store w; txn := InTxn work';
                 faq_seq := fseq; hash_seq := hseq; faults := faults w |}
              [EvExecute s]
        end
    end.

(** [cur.fetchone()[0]] on a result set with one boolean column. *)
Definition fetchone_0 (rows : list bool) : M bool :=
  match rows with
  | b :: _ => ret b
  | [] => raise (TypeError "'NoneType' object is not subscriptable")
  end.

(** [extras.execute_batch(cur, sql, argslist)]: the statement is sent
    once per argument tuple, in order, inside the open transaction. *)
Fixpoint execute_batch {A} (cur : cursor) (sql : A -> statement)
    (argslist : list A) : M unit :=
  match argslist with
  | [] => ret tt
  | args :: rest => execute cur (sql args) ;; execute_batch cur sql rest
  end.

(** [conn.commit()]: the work of the open transaction becomes the
    committed state.  A commit that raises makes nothing durable. *)
Definition commit (conn : connection) : M unit :=
  in_txn_call ;;
  fun w =>
    match txn w with
    | InTxn t =>
        Outcome (inr tt)
          {| store := t; txn := Idle;
             faq_seq := faq_seq w; hash_seq := hash_seq w; faults := faults w |}
          [EvCommit t]
    | Idle => Outcome (inr tt) w []
    | Failed => Outcome (inr tt) (set_txn Idle w) []
    end.

(** ** data_processing.py *)

(** [get_database_connection]: the connection is taken before the
    [try], and given back on every way out of the body. *)
Definition get_database_connection {A} (body : connection -> M A) : M A :=
  conn <- getconn ;;
  try_finally (body conn) (putconn conn).

(** The decorator [with_connection]. *)
Definition with_connection {A} (func : connection -> M A) : M A :=
  get_database_connection (fun conn => func conn).

(** [zip(questions, answers, embeddings)] *)
Fixpoint zip3 {A B C} (xs : list A) (ys : list B) (zs : list C)
  : list (A * B * C) :=
  match xs, ys, zs with
  | x :: xs', y :: ys', z :: zs' => (x, y, z) :: zip3 xs' ys' zs'
  | _, _, _ => []
  end.

Definition insert_faq_sql (args : string * string * bytes) : statement :=
  match args with (q, a, emb) => InsertFaq q a emb end.

Section DataProcessing.

Context {ext : Externals}.

(** An instance of [DBops]; its only attribute is the embedding client,
    seen through what [embed_documents] answers: the vectors, or the
    message of the exception it raises. *)
Record DBops : Type := {
  embeddings : list string -> string + list (list float)
}.

(** [self.embeddings.embed_documents(texts)] *)
Definition embed_documents (self : DBops) (texts : list string)
  : M (list (list float)) :=
  emit (EvEmbed texts) ;;
  match embeddings self texts with
  | inr vectors => ret vectors
  | inl msg => raise (EmbeddingError msg)
  end.

(** [None] is Python's [None], which the handler returns implicitly. *)
Definition calculate_file_hash (self : DBops) (file_content : bytes)
  : M (option string) :=
  try_except
    (ret (Some (sha256_hexdigest file_content)))
    (fun e =>
       print ("Error calculating file hash: " ++ exn_str e) ;;
       ret None).

(** [check_data_hash], under [@with_connection]. *)
Definition check_data_hash (self : DBops) (file_hash : option string) : M bool :=
  with_connection (fun conn =>
    try_except
      (with_cursor conn (fun cur =>
         rows <- execute cur (SelectHashExists file_hash) ;;
         print "Checking data hash in database" ;;
         fetchone_0 rows))
      (fun e =>
         print ("Error checking data hash: " ++ exn_str e) ;;
         ret false)).

(** The list [args] built by [insert_data]:
    [[(q, a, Binary(float32 bytes of emb)) for q, a, emb in zip(...)]]. *)
Definition insert_args (questions answers : list string)
    (embeddings : list (list float)) : list (string * string * bytes) :=
  map (fun '(q, a, emb) => (q, a, float32_tobytes emb))
      (zip3 questions answers embeddings).

(** [insert_data], under [@with_connection]. *)
Definition insert_data (self : DBops) (questions answers : list string)
    (embeddings : list (list float)) : M unit :=
  with_connection (fun conn =>
    print "Inserting data into database" ;;
    with_cursor conn (fun cur =>
      execute cur DeleteFaq ;;
      let args := insert_args questions answers embeddings in
      execute_batch cur insert_faq_sql args ;;
      commit conn)).

(** [update_data_hash], under [@with_connection]. *)
Definition update_data_hash (self : DBops) (file_hash : option string) : M unit :=
  with_connection (fun conn =>
    try_except
      (with_cursor conn (fun cur =>
         execute cur (InsertHash file_hash) ;;
         print "Updating data hash in database" ;;
         commit conn))
      (fun e => print ("Error updating data hash: " ++ exn_str e))).

(** [delete_all_data_hashes], under [@with_connection]. *)
Definition delete_all_data_hashes (self : DBops) : M unit :=
  with_connection (fun conn =>
    try_except
      (with_cursor conn (fun cur =>
         execute cur DeleteHashes ;;
         commit conn ;;
         print "Deleted all data hashes from the database."))
      (fun e => print ("Error deleting all data hashes: " ++ exn_str e))).

(** The fingerprint that a run computes for a frame: the value of
    [file_hash] in [process_local_file]. *)
Definition fingerprint (data_csv : DataFrame) : option string :=
  Some (sha256_hexdigest (pickle_dumps data_csv)).

(** The test of the inner [if] of [process_local_file]. *)
Definition has_required_columns (csv_data : DataFrame) : bool :=
  index_contains "questions" (columns csv_data)
  && index_contains "answers" (columns csv_data).

Definition missing_columns : exn :=
  ValueError "CSV does not contain the required 'questions' and 'answers' columns".

Definition process_local_file (self : DBops) (data_csv : DataFrame) : M unit :=
  let file_content := pickle_dumps data_csv in
  file_hash <- calculate_file_hash self file_content ;;
  current <- check_data_hash self file_hash ;;
  if negb current then
    print "Data hash mismatch found. Updating database..." ;;
    let csv_data := pickle_loads file_content in
    if index_contains "questions" (columns csv_data)
       && index_contains "answers" (columns csv_data)
    then
      questions <- lift (getitem_tolist csv_data "questions") ;;
      answers <- lift (getitem_tolist csv_data "answers") ;;
      embeddings <- embed_documents self questions ;;
      insert_data self questions answers embeddings ;;
      delete_all_data_hashes self ;;
      update_data_hash self file_hash ;;
      print "Database updated with new data and data hash"
    else
      raise missing_columns
  else
    print "Data is up to date".

End DataProcessing.

(** ** The rest of the module: configuration, import, set-up *)

(** [os.environ] *)
Definition environ := string -> option string.

(** [os.getenv(key)] is [env key]; [os.getenv(key, default)] falls
    back to the default only when the variable is unset. *)
Definition getenv_default (env : environ) (key default : string) : string :=
  match env key with
  | Some v => v
  | None => default
  end.

(** The dictionary returned by [get_db_config], in the order of its
    keys. *)
Definition get_db_config (env : environ) : list (string * string) :=
  [("user", getenv_default env "DB_USER" "default_user");
   ("password", getenv_default env "DB_PASSWORD" "default_pass");
   ("host", getenv_default env "DB_HOST" "default_host");
   ("port", getenv_default env "DB_PORT" "5432");
   ("database", getenv_default env "DB_NAME" "default_db")]%string.

Definition api_key_missing : exn :=
  ValueError "OPENAI_API_KEY is not set in environment variables".

(** The statements run when the module is imported: the check of the
    API key ([not OPENAI_API_KEY] is true for [None] and for the empty
    string), then the configuration, then the pool, which opens its
    [minconn=1] connection at once. *)
Definition import_module (env : environ) : M (list (string * string)) :=
  match env "OPENAI_API_KEY"%string with
  | None | Some EmptyString => raise api_key_missing
  | Some _ =>
      let db_config := get_db_config env in
      storage_call ;;
      ret db_config
  end.

(** What [setup_database] deals with: each of the two tables is absent
    or present with its rows. *)
Record schema : Type := {
  faq_table : option (list faq_row);
  hash_table : option (list hash_row)
}.

(** [CREATE TABLE IF NOT EXISTS faq_embeddings (...);
     CREATE TABLE IF NOT EXISTS data_hash (...);] *)
Definition create_tables_if_not_exist (db : schema) : schema :=
  {| faq_table :=
       Some (match faq_table db with Some rows => rows | None => [] end);
     hash_table :=
       Some (match hash_table db with Some rows => rows | None => [] end) |}.

(** [cur.execute] of the two CREATE statements: they run inside a
    transaction and give the schema as the transaction sees it. *)
Definition execute_ddl (cur : cursor) (db : schema) : M schema :=
  in_txn_call ;;
  fun w =>
    match txn w with
    | Failed =>
        Outcome (inl (DatabaseError "current transaction is aborted")) w []
    | InTxn _ => Outcome (inr (create_tables_if_not_exist db)) w []
    | Idle =>
        Outcome (inr (create_tables_if_not_exist db))
          (set_txn (InTxn (store w)) w) []
    end.

Section Setup.

Context {ext : Externals}.

(** [setup_database], under [@with_connection].  The schema is passed
    explicitly: the value of the computation is the committed schema
    after the call (not the Python return value, which is [None]); it
    is the new schema only once [conn.commit()] has gone through. *)
Definition setup_database (self : DBops) (db : schema) : M schema :=
  with_connection (fun conn =>
    try_except
      (with_cursor conn (fun cur =>
         created <- execute_ddl cur db ;;
         commit conn ;;
         print "Database tables created or verified." ;;
         ret created))
      (fun e =>
         print ("Error setting up database: " ++ exn_str e) ;;
         ret db)).

End Setup.

(** ** Reading traces *)

Definition is_fault (e : event) : bool :=
  match e with EvFault _ => true | _ => false end.

(** Some storage call of the run raised. *)
Definition faulted (tr : list event) : bool := existsb is_fault tr.

Definition is_hash_write (e : event) : bool :=
  match e with EvExecute s => modifies_hash s | _ => false end.

Definition is_commit (e : event) : bool :=
  match e with EvCommit _ => true | _ => false end.

(** A storage write: a modifying statement or a commit. *)
Definition is_storage_write (e : event) : bool :=
  match e with
  | EvExecute s => is_write s
  | EvCommit _ => true
  | _ => false
  end.

Definition is_embed (e : event) : bool :=
  match e with EvEmbed _ => true | _ => false end.

Definition writes_nothing (tr : list event) : bool :=
  forallb (fun e => negb (is_storage_write e)) tr.

Definition calls_provider (tr : list event) : bool := existsb is_embed tr.

(** The rows that a batch of inserts creates when the sequence stands
    at [id]. *)
Fixpoint faq_rows_from (id : nat) (args : list (string * string * bytes))
  : list faq_row :=
  match args with
  | [] => []
  | (q, a, emb) :: rest =>
      {| faq_id := id; question := q; answer := a; embedding := emb |}
        :: faq_rows_from (S id) rest
  end.

(** The tables after a refresh that went through from world [w]: the
    rows of the batch, and the one hash record. *)
Definition refreshed (w : world) (args : list (string * string * bytes))
    (fp : option string) : tables :=
  {| faq_embeddings := faq_rows_from (faq_seq w) args;
     data_hash := [{| hash_id := hash_seq w; file_hash := fp |}] |}.

(** The events of a row replacement that goes through. *)
Definition replace_events (args : list (string * string * bytes))
    (t : tables) : list event :=
  EvPrint "Inserting data into database"
    :: EvExecute DeleteFaq
    :: map (fun a => EvExecute (insert_faq_sql a)) args
    ++ [EvCommit t].

(** The events of a whole refresh that goes through from world [w]. *)
Definition refresh_events (w : world) (fp : option string)
    (questions : list string) (args : list (string * string * bytes))
  : list event :=
  let rows := faq_rows_from (faq_seq w) args in
  [EvExecute (SelectHashExists fp);
   EvPrint "Checking data hash in database";
   EvPrint "Data hash mismatch found. Updating database...";
   EvEmbed questions]
  ++ replace_events args
       {| faq_embeddings := rows; data_hash := data_hash (store w) |}
  ++ [EvExecute DeleteHashes;
      EvCommit {| faq_embeddings := rows; data_hash := [] |};
      EvPrint "Deleted all data hashes from the database.";
      EvExecute (InsertHash fp);
      EvPrint "Updating data hash in database";
      EvCommit (refreshed w args fp);
      EvPrint "Database updated with new data and data hash"].

(** ** Invariants *)

(** [m] keeps [P]: whenever [P] holds before, it holds after, however
    [m] ends. *)
Definition keeps {A} (P : world -> Prop) (m : M A) : Prop :=
  forall w, P w -> P (final (m w)).

(** The fingerprints held by a list of hash records (NULLs left out). *)
Definition recorded (rows : list hash_row) : list string :=
  flat_map (fun r => match file_hash r with Some h => [h] | None => [] end)
           rows.

(** The constraints of the two tables hold in the committed state: the
    primary keys are distinct and were drawn from the sequences, and no
    fingerprint occurs twice ([file_hash TEXT UNIQUE]). *)
Definition keys_valid (w : world) : Prop :=
  NoDup (map faq_id (faq_embeddings (store w))) /\
  Forall (fun r => faq_id r < faq_seq w) (faq_embeddings (store w)) /\
  NoDup (map hash_id (data_hash (store w))) /\
  Forall (fun r => hash_id r < hash_seq w) (data_hash (store w)) /\
  NoDup (recorded (data_hash (store w))).

(** ** A concrete instance of the library interface

    Used to run the model on concrete frames.  The serialisation writes
    the frame as two-byte tokens (column start, cell start, character);
    the digest is a small checksum in hexadecimal; a vector is stored
    one byte per component. *)
Module Sample.

Inductive token : Type :=
| TColumn            (* a column starts; its label follows *)
| TCell              (* a cell starts *)
| TChar (c : ascii).

Definition encode_text (s : string) : list token :=
  map TChar (list_ascii_of_string s).

Definition encode_column (c : string * list string) : list token :=
  TColumn :: encode_text (fst c)
    ++ flat_map (fun cell => TCell :: encode_text cell) (snd c).

Definition encode_frame (df : DataFrame) : list token :=
  flat_map encode_column df.

(** Decoding reads the tokens from the right: the text and the cells
    met so far wait for the marker that owns them. *)
Definition decode_step (t : token) (acc : string * list string * DataFrame)
  : string * list string * DataFrame :=
  match acc with
  | (text, cells, cols) =>
      match t with
      | TChar c => (String c text, cells, cols)
      | TCell => (EmptyString, text :: cells, cols)
      | TColumn => (EmptyString, [], (text, cells) :: cols)
      end
  end.

Definition decode_frame (ts : list token) : DataFrame :=
  snd (fold_right decode_step (EmptyString, [], []) ts).

Definition token_bytes (t : token) : bytes :=
  match t with
  | TColumn => [x03; x00]
  | TCell => [x02; x00]
  | TChar c => [x01; byte_of_ascii c]
  end.

Fixpoint tokens_of_bytes (bs : bytes) : list token :=
  match bs with
  | x03 :: _ :: rest => TColumn :: tokens_of_bytes rest
  | x02 :: _ :: rest => TCell :: tokens_of_bytes rest
  | _ :: b :: rest => TChar (ascii_of_byte b) :: tokens_of_bytes rest
  | _ => []
  end.

Definition dumps (df : DataFrame) : bytes :=
  flat_map token_bytes (encode_frame df).

Definition loads (bs : bytes) : DataFrame :=
  decode_frame (tokens_of_bytes bs).

Definition hex_digit (n : nat) : ascii :=
  nth n (list_ascii_of_string "0123456789abcdef") "0"%char.

(** A 16-bit polynomial checksum, written as four hexadecimal digits. *)
Definition checksum (bs : bytes) : N :=
  fold_left (fun h b => (h * 31 + Byte.to_N b) mod 65536)%N bs 7%N.

Definition hexdigest (bs : bytes) : string :=
  let h := checksum bs in
  string_of_list_ascii
    (map (fun d => hex_digit (N.to_nat d))
       [h / 4096; (h / 256) mod 16; (h / 16) mod 16; h mod 16]%N).

Lemma tokens_of_token_bytes ts :
  tokens_of_bytes (flat_map token_bytes ts) = ts.
Proof.
  induction ts as [|t ts IH]; [reflexivity|].
  destruct t; cbn [flat_map token_bytes app]; cbn [tokens_of_bytes];
    rewrite ?ascii_of_byte_of_ascii, IH; reflexivity.
Qed.

Lemma append_empty_r (s : string) : (s ++ EmptyString)%string = s.
Proof. induction s as [|c s IH]; cbn; [|rewrite IH]; reflexivity. Qed.

Lemma decode_text s ts text cells cols :
  fold_right decode_step (EmptyString, [], []) ts = (text, cells, cols) ->
  fold_right decode_step (EmptyString, [], []) (encode_text s ++ ts)
  = ((s ++ text)%string, cells, cols).
Proof.
  intros H. unfold encode_text.
  induction s as [|c s IH]; cbn; [exact H|].
  rewrite IH. reflexivity.
Qed.

Lemma decode_cells vals ts cells cols :
  fold_right decode_step (EmptyString, [], []) ts = (EmptyString, cells, cols) ->
  fold_right decode_step (EmptyString, [], [])
    (flat_map (fun cell => TCell :: encode_text cell) vals ++ ts)
  = (EmptyString, vals ++ cells, cols).
Proof.
  intros H. induction vals as [|v vals IH]; cbn; [exact H|].
  rewrite <- app_assoc, (decode_text v _ IH). cbn.
  rewrite append_empty_r. reflexivity.
Qed.

Lemma decode_columns df :
  fold_right decode_step (EmptyString, [], []) (encode_frame df)
  = (EmptyString, [], df).
Proof.
  induction df as [|[label vals] df IH]; [reflexivity|].
  unfold encode_frame in *. cbn [flat_map]. unfold encode_column at 1.
  cbn [fst snd app fold_right]. rewrite <- app_assoc.
  rewrite (decode_text label _ (decode_cells vals _ IH)). cbn.
  rewrite append_empty_r, app_nil_r. reflexivity.
Qed.

Lemma loads_dumps df : loads (dumps df) = df.
Proof.
  unfold loads, dumps, decode_frame.
  rewrite tokens_of_token_bytes, decode_columns. reflexivity.
Qed.

(** The instance. *)
Definition externals : Externals := {|
  float := byte;
  float32_tobytes := fun v => v;
  sha256_hexdigest := hexdigest;
  pickle_dumps := dumps;
  pickle_loads := loads;
  pickle_loads_dumps := loads_dumps
|}.

(** Sample data: the frame of the end-to-end example, a frame without
    the [answers] column, a provider that answers, one that is down,
    and a few worlds. *)
Definition frame : DataFrame :=
  [("questions"%string, ["What is 2+2?"; "Capital of France?"]%string);
   ("answers"%string, ["4"; "Paris"]%string)].

Definition frame_without_answers : DataFrame :=
  [("questions"%string, ["What is 2+2?"; "Capital of France?"]%string)].

(** The vector of a text: its first two characters. *)
Definition toy_vector (text : string) : list (@float externals) :=
  map byte_of_ascii (firstn 2 (list_ascii_of_string text)).

Definition self : @DBops externals :=
  {| embeddings := fun texts => inr (map toy_vector texts) |}.

Definition self_provider_down : @DBops externals :=
  {| embeddings := fun _ => inl "rate limit exceeded"%string |}.

Definition empty_world : world :=
  {| store := {| faq_embeddings := []; data_hash := [] |};
     txn := Idle; faq_seq := 1; hash_seq := 1; faults := [] |}.

(** A world left by an earlier ingestion of some other frame. *)
Definition old_tables : tables :=
  {| faq_embeddings :=
       [{| faq_id := 1; question := "Old question?"; answer := "Old answer";
           embedding := [x4f; x6c] |}];
     data_hash := [{| hash_id := 1; file_hash := Some "0000"%string |}] |}.

Definition old_world : world :=
  {| store := old_tables; txn := Idle; faq_seq := 2; hash_seq := 2;
     faults := [] |}.

(** The same world, in which the twelfth storage call fails: the
    [DELETE FROM data_hash] of [delete_all_data_hashes]. *)
Definition old_world_delete_fails : world :=
  set_faults (repeat None 11 ++ [Some "connection reset"%string]) old_world.

(** A world in which the fingerprint of [frame_without_answers] is the
    recorded one. *)
Definition world_of_frame_without_answers : world :=
  {| store :=
       {| faq_embeddings := [];
          data_hash :=
            [{| hash_id := 1;
                file_hash := @fingerprint externals frame_without_answers |}] |};
     txn := Idle; faq_seq := 1; hash_seq := 2; faults := [] |}.

(** The same world as [old_world], in which the seventh storage call
    fails: the first INSERT of the batch of [insert_data]. *)
Definition old_world_insert_fails : world :=
  set_faults (repeat None 6 ++ [Some "disk full"%string]) old_world.

(** The same world, in which the third storage call fails: the
    statement of whichever method is called first. *)
Definition old_world_statement_fails : world :=
  set_faults [None; None; Some "connection reset"%string] old_world.

(** Some runs on these data. *)
Definition first_run : outcome unit := process_local_file self frame old_world.

Definition second_run : outcome unit :=
  process_local_file self_provider_down frame (final first_run).

Definition run_delete_fails : outcome unit :=
  process_local_file self frame old_world_delete_fails.

(** The world in which [run_delete_fails] reaches
    [delete_all_data_hashes]. *)
Definition world_before_delete : world :=
  final
    (insert_data self
       ["What is 2+2?"; "Capital of France?"]%string ["4"; "Paris"]%string
       [toy_vector "What is 2+2?"; toy_vector "Capital of France?"]
       (final (check_data_hash self (@fingerprint externals frame)
                 old_world_delete_fails))).

(** Further sample data. *)

(** A provider that answers with one vector only. *)
Definition self_short_answer : @DBops externals :=
  {| embeddings := fun texts => inr (map toy_vector (firstn 1 texts)) |}.

(** A frame in which the label [questions] occurs twice. *)
Definition frame_repeated_label : DataFrame :=
  [("questions"%string, ["What is 2+2?"]%string);
   ("answers"%string, ["4"]%string);
   ("questions"%string, ["Capital of France?"]%string)].

(** A world in which the fingerprint of [frame] is the recorded one,
    and the query of the next hash check fails. *)
Definition world_of_frame_check_fails : world :=
  {| store :=
       {| faq_embeddings := [];
          data_hash :=
            [{| hash_id := 1; file_hash := @fingerprint externals frame |}] |};
     txn := Idle; faq_seq := 1; hash_seq := 2;
     faults := [None; None; Some "connection reset"%string] |}.

(** [old_world], in which the pool cannot hand out a connection. *)
Definition old_world_no_connection : world :=
  set_faults [Some "connection pool exhausted"%string] old_world.

(** [old_world], in which the statements of both hash methods fail:
    storage calls twelve and fifteen. *)
Definition old_world_hash_methods_fail : world :=
  set_faults
    (repeat None 11 ++ [Some "connection reset"%string; None; None;
                        Some "connection reset"%string])
    old_world.

(** An environment with a key and one database setting. *)
Definition environment : environ :=
  fun name =>
    if String.eqb name "OPENAI_API_KEY" then Some "sk-test"%string
    else if String.eqb name "DB_HOST" then Some "db.internal"%string
    else None.

(** A schema in which only [data_hash] exists, with one record. *)
Definition half_schema : schema :=
  {| faq_table := None; hash_table := Some (data_hash old_tables) |}.

End Sample.

(** * Verification *)

Section Verification.

Context {ext : Externals}.

Ltac run_model :=
  cbv [check_data_hash insert_data update_data_hash delete_all_data_hashes
       with_connection get_database_connection getconn putconn with_cursor
       try_except try_finally bind ret raise print emit lift
       execute commit in_txn_call storage_call fetchone_0
       set_txn set_faults];
  cbn.

Ltac split_faults :=
  repeat match goal with
    | |- context [hd None ?fs] =>
        is_var fs; destruct fs as [|[?|] ?]; cbn
    end.

Ltac conjuncts := repeat match goal with |- _ /\ _ => split end.

Ltac leaf :=
  solve [ reflexivity | assumption | eexists; reflexivity
        | left; reflexivity | right; eexists; repeat split; reflexivity ].

(** Closes a goal of the form [A /\ ... /\ (clean \/ faulted)] once the
    run has been evaluated. *)
Ltac outcome :=
  conjuncts; try leaf;
  first [ left; conjuncts; leaf | right; conjuncts; leaf ].

Lemma check_data_hash_outcome (self : DBops) h w :
  let o := check_data_hash self h w in
  store (final o) = store w /\ faq_seq (final o) = faq_seq w /\
  hash_seq (final o) = hash_seq w /\
  writes_nothing (trace o) = true /\ calls_provider (trace o) = false /\
  ((faulted (trace o) = false /\
    result o = inr (hash_exists h (store w)) /\
    trace o = [EvExecute (SelectHashExists h);
               EvPrint "Checking data hash in database"])
   \/
   (faulted (trace o) = true /\
    (result o = inr false \/
     exists msg, result o = inl (DatabaseError msg) /\
                 hd None (faults w) = Some msg))).
Proof.
  destruct w as [st tx fq hq fs]. run_model. split_faults.
  all: outcome.
Qed.

Lemma delete_all_data_hashes_outcome (self : DBops) w :
  let o := delete_all_data_hashes self w in
  faq_seq (final o) = faq_seq w /\ hash_seq (final o) = hash_seq w /\
  calls_provider (trace o) = false /\
  ((faulted (trace o) = false /\ result o = inr tt /\
    store (final o)
    = {| faq_embeddings := faq_embeddings (store w); data_hash := [] |} /\
    trace o = [EvExecute DeleteHashes; EvCommit (store (final o));
               EvPrint "Deleted all data hashes from the database."])
   \/
   (faulted (trace o) = true /\ store (final o) = store w /\
    existsb is_commit (trace o) = false /\
    (result o = inr tt \/
     exists msg, result o = inl (DatabaseError msg) /\
                 trace o = [EvFault msg] /\
                 hd None (faults w) = Some msg))).
Proof.
  destruct w as [st tx fq hq fs]. run_model. split_faults.
  all: outcome.
Qed.

Lemma update_data_hash_outcome (self : DBops) h w :
  let o := update_data_hash self h w in
  faq_seq (final o) = faq_seq w /\
  calls_provider (trace o) = false /\
  ((faulted (trace o) = false /\ result o = inr tt /\
    store (final o)
    = {| faq_embeddings := faq_embeddings (store w);
         data_hash :=
           if hash_exists h (store w) then data_hash (store w)
           else data_hash (store w)
                ++ [{| hash_id := hash_seq w; file_hash := h |}] |} /\
    trace o = [EvExecute (InsertHash h);
               EvPrint "Updating data hash in database";
               EvCommit (store (final o))])
   \/
   (faulted (trace o) = true /\ store (final o) = store w /\
    existsb is_commit (trace o) = false /\
    (result o = inr tt \/
     exists msg, result o = inl (DatabaseError msg) /\
                 trace o = [EvFault msg] /\
                 hd None (faults w) = Some msg))).
Proof.
  destruct w as [st tx fq hq fs]. run_model. split_faults.
  all: outcome.
Qed.

Lemma execute_batch_outcome args : forall w t,
  txn w = InTxn t ->
  let o := execute_batch Cursor insert_faq_sql args w in
  store (final o) = store w /\ hash_seq (final o) = hash_seq w /\
  ((faulted (trace o) = false /\ result o = inr tt /\
    txn (final o)
    = InTxn {| faq_embeddings :=
                 faq_embeddings t ++ faq_rows_from (faq_seq w) args;
               data_hash := data_hash t |} /\
    trace o = map (fun a => EvExecute (insert_faq_sql a)) args)
   \/
   (faulted (trace o) = true /\
    (exists msg, result o = inl (DatabaseError msg)) /\
    existsb is_commit (trace o) = false /\
    existsb is_hash_write (trace o) = false /\
    existsb is_embed (trace o) = false)).
Proof.
  induction args as [|[[q a] emb] rest IH]; intros w t Ht.
  - cbn. rewrite Ht, app_nil_r. destruct t. auto 8.
  - destruct w as [st tx fq hq fs]. cbn in Ht. subst tx.
    cbn [execute_batch]. run_model.
    destruct fs as [|[msg|] fs]; cbn.
    2: { outcome. }
    all: match goal with
         | |- context [execute_batch Cursor insert_faq_sql ?l ?w1] =>
             specialize (IH w1 _ eq_refl); cbv zeta in IH;
             destruct (execute_batch Cursor insert_faq_sql l w1)
               as [r wf tr]
         end; cbn in *.
    all: destruct IH as (Hst & Hhq & [(Hf & Hr & Htx & Htr) | (Hf & (m & Hr) & Hc & Hh & He)]);
      subst r; (split; [exact Hst|]); (split; [exact Hhq|]).
    all: first
      [ left; split; [exact Hf|]; split; [reflexivity|];
        split; [rewrite Htx, <- app_assoc; reflexivity | rewrite Htr; reflexivity]
      | right; split; [exact Hf|]; split; [eauto|]; repeat split; assumption ].
Qed.

Lemma inserts_quiet (args : list (string * string * bytes)) :
  let tr := map (fun a => EvExecute (insert_faq_sql a)) args in
  existsb is_hash_write tr = false /\ existsb is_commit tr = false /\
  existsb is_fault tr = false /\ existsb is_embed tr = false.
Proof.
  induction args as [|[[q a] emb] rest IH]; cbn; auto.
Qed.

Lemma insert_data_outcome (self : DBops) qs ans es w :
  let o := insert_data self qs ans es w in
  hash_seq (final o) = hash_seq w /\
  existsb is_hash_write (trace o) = false /\
  calls_provider (trace o) = false /\
  ((faulted (trace o) = false /\ result o = inr tt /\
    store (final o)
    = {| faq_embeddings := faq_rows_from (faq_seq w) (insert_args qs ans es);
         data_hash := data_hash (store w) |} /\
    trace o = replace_events (insert_args qs ans es) (store (final o)))
   \/
   (faulted (trace o) = true /\
    (exists msg, result o = inl (DatabaseError msg)) /\
    store (final o) = store w /\
    existsb is_commit (trace o) = false)).
Proof.
  unfold insert_data. generalize (insert_args qs ans es) as args. intros args.
  destruct (inserts_quiet args) as (Qh & Qc & Qf & Qe). cbv zeta in *.
  destruct w as [st tx fq hq fs]. run_model. split_faults.
  all: try solve [outcome].
  all: match goal with
       | |- context [execute_batch Cursor insert_faq_sql ?l ?w1] =>
           pose proof (@execute_batch_outcome l w1 _ eq_refl) as H;
           cbv zeta in H;
           destruct (execute_batch Cursor insert_faq_sql l w1)
             as [r [st' tx' fq' hq' fs'] tr]
       end; cbn in H.
  all: destruct H as (Hst & Hhq & [(Hf & Hr & Htx & Htr) | (Hf & (m & Hr) & Hc & Hh & He)]);
    subst; cbn.
  all: try (destruct fs' as [|[msg|] fs']; cbn).
  all: unfold faulted, calls_provider, replace_events in *;
    rewrite ?app_nil_r, ?existsb_app, ?Qh, ?Qc, ?Qf, ?Qe, ?Hf, ?Hc, ?Hh, ?He; cbn.
  all: outcome.
Qed.

Lemma faulted_app a b :
  faulted (a ++ b) = false <-> faulted a = false /\ faulted b = false.
Proof. unfold faulted. rewrite existsb_app. apply orb_false_iff. Qed.

Ltac unfold_run :=
  unfold process_local_file, calculate_file_hash, embed_documents;
  cbv [bind try_except ret print emit lift raise];
  rewrite ?pickle_loads_dumps;
  repeat match goal with
    | |- context [Some (sha256_hexdigest (pickle_dumps ?D))] =>
        change (Some (sha256_hexdigest (pickle_dumps D))) with (fingerprint D)
    end;
  repeat match goal with
    | |- context [index_contains "questions" (columns ?D)
                  && index_contains "answers" (columns ?D)] =>
        change (index_contains "questions" (columns D)
                && index_contains "answers" (columns D))
          with (has_required_columns D)
    end.

Ltac cases_of H := decompose [and or ex] H; clear H; subst.

(** Runs the next method call of the goal and brings in what is known
    about its outcome. *)
Ltac step :=
  let H := fresh "Hop" in
  match goal with
  | |- context [check_data_hash ?s ?h ?w] =>
      pose proof (check_data_hash_outcome s h w) as H; cbv zeta in H;
      destruct (check_data_hash s h w) as [? ? ?]
  | |- context [insert_data ?s ?q ?a ?e ?w] =>
      pose proof (insert_data_outcome s q a e w) as H; cbv zeta in H;
      destruct (insert_data s q a e w) as [? ? ?]
  | |- context [delete_all_data_hashes ?s ?w] =>
      pose proof (delete_all_data_hashes_outcome s w) as H; cbv zeta in H;
      destruct (delete_all_data_hashes s w) as [? ? ?]
  | |- context [update_data_hash ?s ?h ?w] =>
      pose proof (update_data_hash_outcome s h w) as H; cbv zeta in H;
      destruct (update_data_hash s h w) as [? ? ?]
  end;
  cbn [result final trace] in H; cases_of H.

Ltac branch :=
  match goal with
  | |- context [match ?r with inl _ => _ | inr _ => _ end] =>
      is_var r; destruct r
  | |- context [if negb ?b then _ else _] => destruct b eqn:?
  | |- context [if has_required_columns ?D then _ else _] =>
      destruct (has_required_columns D) eqn:?
  | |- context [match getitem_tolist ?D "questions" with _ => _ end] =>
      destruct (getitem_tolist D "questions") eqn:?
  | |- context [match getitem_tolist ?D "answers" with _ => _ end] =>
      destruct (getitem_tolist D "answers") eqn:?
  | |- context [match embeddings ?s ?q with _ => _ end] =>
      destruct (embeddings s q) eqn:?
  end.

(** Rewrites the tables and sequences of intermediate worlds down to
    those of the initial world. *)
Ltac chain :=
  repeat match goal with
    | H : store ?f = _ |- context [store ?f] => rewrite H
    | H : faq_seq ?f = _ |- context [faq_seq ?f] => rewrite H
    | H : hash_seq ?f = _ |- context [hash_seq ?f] => rewrite H
    end;
  cbn [faq_embeddings data_hash hash_exists existsb app].

(** Refutes a goal whose trace is assumed free of faults although one
    of its parts has one. *)
Ltac no_fault :=
  let Hf := fresh "Hf" in
  intros Hf; exfalso; revert Hf; unfold faulted in *;
  repeat first [rewrite existsb_app | progress cbn [existsb is_fault orb]];
  repeat match goal with
    | H : existsb is_fault _ = true |- _ => rewrite H; clear H
    end;
  cbn; rewrite ?orb_true_r; discriminate.

Ltac explore :=
  repeat (cbn [negb result final trace]; first [step | branch]);
  cbn [negb result final trace app].

Lemma clean_run self D w :
  let o := process_local_file self D w in
  let fp := fingerprint D in
  faulted (trace o) = false ->
  (hash_exists fp (store w) = true /\ result o = inr tt /\
   store (final o) = store w /\
   trace o = [EvExecute (SelectHashExists fp);
              EvPrint "Checking data hash in database";
              EvPrint "Data is up to date"])
  \/
  (hash_exists fp (store w) = false /\ result o = inr tt /\
   exists qs ans es,
     getitem_tolist D "questions" = inr qs /\
     getitem_tolist D "answers" = inr ans /\
     embeddings self qs = inr es /\
     store (final o) = refreshed w (insert_args qs ans es) fp /\
     trace o = refresh_events w fp qs (insert_args qs ans es))
  \/
  (hash_exists fp (store w) = false /\ (exists e, result o = inl e) /\
   store (final o) = store w /\ writes_nothing (trace o) = true).
Proof.
  unfold_run. explore. all: cbn.
  all: try solve [no_fault].
  all: intros _.
  all: try solve [left; conjuncts; solve [reflexivity | assumption]].
  all: try solve [right; right; conjuncts;
                  solve [reflexivity | assumption | eexists; reflexivity]].
  right; left. conjuncts; try reflexivity.
  do 3 eexists. conjuncts; try reflexivity; [eassumption| |].
  - unfold refreshed, hash_exists in *. chain. reflexivity.
  - unfold refresh_events, replace_events, refreshed, hash_exists in *.
    chain. cbn. rewrite <- app_assoc. reflexivity.
Qed.

Lemma bind_trace {A B} (m : M A) (k : A -> M B) w :
  exists rest, trace (bind m k w) = trace (m w) ++ rest.
Proof.
  unfold bind. destruct (m w) as [[e|x] w1 t1]; cbn.
  - exists []. rewrite app_nil_r. reflexivity.
  - destruct (k x w1). eexists. reflexivity.
Qed.

Lemma run_starts_with_check (self : DBops) D w :
  exists rest,
    trace (process_local_file self D w)
    = trace (check_data_hash self (fingerprint D) w) ++ rest.
Proof.
  unfold process_local_file, calculate_file_hash, fingerprint.
  cbv [try_except ret]. unfold bind at 1. cbn [result final trace].
  match goal with
  | |- context [bind (check_data_hash ?s ?h) ?k ?w] =>
      destruct (bind_trace (check_data_hash s h) k w) as [rest Hrest];
      destruct (bind (check_data_hash s h) k w) as [r w2 t2]
  end.
  exists rest. exact Hrest.
Qed.

Lemma hash_exists_iff fp t :
  hash_exists (Some fp) t = true
  <-> exists r, In r (data_hash t) /\ file_hash r = Some fp.
Proof.
  unfold hash_exists. rewrite existsb_exists.
  split; intros (r & Hin & Hr); exists r; split; auto.
  - destruct (file_hash r) as [x|]; cbn in Hr; [|discriminate].
    apply String.eqb_eq in Hr. congruence.
  - rewrite Hr. cbn. apply String.eqb_refl.
Qed.

Lemma refreshed_has_fingerprint w args D :
  hash_exists (fingerprint D) (refreshed w args (fingerprint D)) = true.
Proof.
  apply hash_exists_iff. eexists. split; [left; reflexivity | reflexivity].
Qed.

(** C10. When the fingerprint of the frame is already recorded in
    [data_hash] and no storage call of the run fails,
    [process_local_file] returns normally, its only storage access is
    the existence query, and the provider is not called.  The frame is
    arbitrary: it may lack the [questions] or [answers] column, since
    the columns are looked at only on the stale path. *)
Theorem current_frame_is_left_alone (self : DBops) D w :
  hash_exists (fingerprint D) (store w) = true ->
  faulted (trace (process_local_file self D w)) = false ->
  let o := process_local_file self D w in
  result o = inr tt /\ store (final o) = store w /\
  trace o = [EvExecute (SelectHashExists (fingerprint D));
             EvPrint "Checking data hash in database";
             EvPrint "Data is up to date"] /\
  writes_nothing (trace o) = true /\ calls_provider (trace o) = false.
Proof.
  intros Hh Hf. pose proof (clean_run self D w) as H. cbv zeta in *.
  destruct (H Hf) as [(_ & Hr & Hs & Ht) | [(He & _) | (He & _)]];
    try congruence.
  rewrite Ht. auto.
Qed.

Lemma check_not_faulted (self : DBops) D w :
  faulted (trace (process_local_file self D w)) = false ->
  faulted (trace (check_data_hash self (fingerprint D) w)) = false.
Proof.
  destruct (run_starts_with_check self D w) as [rest ->].
  intros H. apply faulted_app in H. tauto.
Qed.

(** What a run that returns normally without a storage fault leaves
    behind: the fingerprint of its frame is recorded. *)
Lemma completed_run_records_fingerprint (self : DBops) D w :
  let o := process_local_file self D w in
  result o = inr tt -> faulted (trace o) = false ->
  hash_exists (fingerprint D) (store (final o)) = true.
Proof.
  intros o Hr Hf. subst o. pose proof (clean_run self D w) as H. cbv zeta in H.
  destruct (H Hf) as [(Hh & _ & Hs & _) | [(_ & _ & qs & ans & es & _ & _ & _ & Hs & _) | (_ & (e & He) & _)]].
  - rewrite Hs. exact Hh.
  - rewrite Hs. apply refreshed_has_fingerprint.
  - congruence.
Qed.

(** C2. Idempotence.  Let a first run on frame [D] return normally
    without a storage fault, from any world [w].  A second run on the
    same frame, started from any world whose committed tables are those
    the first run left (whatever the provider of the second run would
    answer), finds [check_data_hash] true for the fingerprint of [D],
    returns normally, leaves both tables as the first run left them,
    sends no modifying statement, commits nothing and does not call the
    provider. *)
Theorem second_run_changes_nothing (self1 self2 : DBops) D w w2 :
  let o1 := process_local_file self1 D w in
  result o1 = inr tt -> faulted (trace o1) = false ->
  store w2 = store (final o1) ->
  let o2 := process_local_file self2 D w2 in
  faulted (trace o2) = false ->
  result (check_data_hash self2 (fingerprint D) w2) = inr true /\
  result o2 = inr tt /\
  store (final o2) = store (final o1) /\
  writes_nothing (trace o2) = true /\ calls_provider (trace o2) = false.
Proof.
  intros o1 Hr1 Hf1 Hw2 o2 Hf2. subst o1 o2.
  pose proof (completed_run_records_fingerprint self1 D w Hr1 Hf1) as Hh.
  cbv zeta in Hh. rewrite <- Hw2 in Hh.
  pose proof (clean_run self2 D w2) as H. cbv zeta in H.
  destruct (H Hf2) as [(_ & Hr & Hs & Ht) | [(He & _) | (He & _)]];
    try congruence.
  split.
  - pose proof (check_data_hash_outcome self2 (fingerprint D) w2) as Hc.
    cbv zeta in Hc.
    destruct Hc as (_ & _ & _ & _ & _ & [(_ & Hrc & _) | (Hfc & _)]).
    + rewrite Hrc, Hh. reflexivity.
    + rewrite (check_not_faulted self2 D w2 Hf2) in Hfc. discriminate.
  - rewrite Hr, Hs, Ht, Hw2. auto.
Qed.

(** C6. After a refresh that went through (the provider was called,
    no storage call failed, the run returned normally) the [data_hash]
    table holds exactly one record, and its [file_hash] is the
    fingerprint of the frame just ingested.  In the trace the
    [DELETE FROM data_hash] comes before the insertion of the new
    fingerprint, and no other statement touches [data_hash] before it. *)
Theorem one_hash_record_after_refresh (self : DBops) D w :
  let o := process_local_file self D w in
  result o = inr tt -> faulted (trace o) = false ->
  calls_provider (trace o) = true ->
  data_hash (store (final o))
  = [{| hash_id := hash_seq w; file_hash := fingerprint D |}]
  /\ exists pre mid post,
       trace o = pre ++ EvExecute DeleteHashes :: mid
                   ++ EvExecute (InsertHash (fingerprint D)) :: post
       /\ existsb is_hash_write pre = false.
Proof.
  intros o Hr Hf Hp. subst o. pose proof (clean_run self D w) as H.
  cbv zeta in H.
  destruct (H Hf) as [(_ & _ & _ & Ht) | [(_ & _ & qs & ans & es & _ & _ & _ & Hs & Ht) | (_ & (e & He) & _)]].
  - rewrite Ht in Hp. discriminate.
  - rewrite Hs, Ht. split; [reflexivity|].
    unfold refresh_events.
    eexists (_ ++ _), [_; _], [_; _; _]. rewrite <- app_assoc. split.
    + reflexivity.
    + rewrite existsb_app. unfold replace_events. cbn.
      rewrite existsb_app. destruct (inserts_quiet (insert_args qs ans es)) as (-> & _).
      reflexivity.
  - congruence.
Qed.

Lemma nth_error_zip3 {A B C} (xs : list A) (ys : list B) (zs : list C) :
  forall i x y z,
    nth_error xs i = Some x -> nth_error ys i = Some y ->
    nth_error zs i = Some z ->
    nth_error (zip3 xs ys zs) i = Some (x, y, z).
Proof.
  revert ys zs.
  induction xs as [|x0 xs IH]; intros [|y0 ys] [|z0 zs] [|i] x y z;
    cbn; intros Hx Hy Hz; try discriminate.
  - congruence.
  - apply IH; assumption.
Qed.

Lemma length_zip3 {A B C} (xs : list A) (ys : list B) (zs : list C) n :
  List.length xs = n -> List.length ys = n -> List.length zs = n ->
  List.length (zip3 xs ys zs) = n.
Proof.
  revert ys zs n.
  induction xs as [|x0 xs IH]; intros [|y0 ys] [|z0 zs] [|n];
    cbn; intros Hx Hy Hz; try discriminate; auto.
Qed.

Lemma nth_error_faq_rows_from args :
  forall id i q a emb,
    nth_error args i = Some (q, a, emb) ->
    nth_error (faq_rows_from id args) i
    = Some {| faq_id := id + i; question := q; answer := a;
              embedding := emb |}.
Proof.
  induction args as [|[[q0 a0] e0] rest IH]; intros id [|i] q a emb;
    cbn; intros H; try discriminate.
  - injection H as -> -> ->. rewrite Nat.add_0_r. reflexivity.
  - rewrite (IH (S id) i q a emb H).
    rewrite Nat.add_succ_r. reflexivity.
Qed.

Lemma length_faq_rows_from args :
  forall id, List.length (faq_rows_from id args) = List.length args.
Proof.
  induction args as [|[[q0 a0] e0] rest IH]; intros id; cbn; auto.
Qed.

(** C8. Take a refresh that went through, on a frame whose columns
    [questions] and [answers] have [n] cells each and for which the
    provider answered [n] vectors.  Then [faq_embeddings] holds [n]
    rows, and the row at position [i] carries the question at index
    [i], the answer at index [i] and the bytes of the vector at index
    [i] of the provider's answer, under the id drawn [i] steps after
    the start of the sequence. *)
Theorem rows_keep_provider_order (self : DBops) D w qs ans es n :
  let o := process_local_file self D w in
  getitem_tolist D "questions" = inr qs ->
  getitem_tolist D "answers" = inr ans ->
  embeddings self qs = inr es ->
  List.length qs = n -> List.length ans = n -> List.length es = n ->
  result o = inr tt -> faulted (trace o) = false ->
  calls_provider (trace o) = true ->
  List.length (faq_embeddings (store (final o))) = n /\
  forall i q a e,
    nth_error qs i = Some q -> nth_error ans i = Some a ->
    nth_error es i = Some e ->
    nth_error (faq_embeddings (store (final o))) i
    = Some {| faq_id := faq_seq w + i; question := q; answer := a;
              embedding := float32_tobytes e |}.
Proof.
  intros o Hq Ha He Lq La Le Hr Hf Hp. subst o.
  pose proof (clean_run self D w) as H. cbv zeta in H.
  destruct (H Hf) as [(_ & _ & _ & Ht) | [(_ & _ & qs' & ans' & es' & Hq' & Ha' & He' & Hs & _) | (_ & (e & Hx) & _)]].
  - rewrite Ht in Hp. discriminate.
  - rewrite Hq in Hq'. injection Hq' as <-.
    rewrite Ha in Ha'. injection Ha' as <-.
    rewrite He in He'. injection He' as <-.
    rewrite Hs. cbn [refreshed faq_embeddings]. split.
    + rewrite length_faq_rows_from. unfold insert_args.
      rewrite length_map. apply length_zip3; assumption.
    + intros i q a e Hi Hj Hk. apply nth_error_faq_rows_from.
      unfold insert_args.
      rewrite nth_error_map, (nth_error_zip3 qs ans es i Hi Hj Hk).
      reflexivity.
  - congruence.
Qed.

(** The hash check, read off the storage calls that fail: after
    [getconn], the second storage call opens the cursor and the third
    sends the query. *)
Lemma check_data_hash_by_faults (self : DBops) h w :
  hd None (faults w) = None ->
  let o := check_data_hash self h w in
  match nth 1 (faults w) None, nth 2 (faults w) None with
  | None, None =>
      result o = inr (hash_exists h (store w)) /\
      trace o = [EvExecute (SelectHashExists h);
                 EvPrint "Checking data hash in database"]
  | Some msg, _ | None, Some msg =>
      result o = inr false /\
      trace o = [EvFault msg; EvPrint ("Error checking data hash: " ++ msg)]
  end.
Proof.
  destruct w as [st tx fq hq fs]. cbn [faults]. intros Hconn.
  destruct fs as [|[m0|] [|[m1|] [|[m2|] rest]]]; cbn in Hconn;
    try discriminate Hconn.
  all: run_model; split; reflexivity.
Qed.

(** C5. Once the pool has handed out a connection, [check_data_hash]
    never raises, and its answer is fixed by the table and by whether
    the existence query goes through.  The query goes through exactly
    when neither the opening of the cursor nor the [SELECT] fails:
    then the [SELECT] for this fingerprint is sent, and the answer is
    [True] exactly when [data_hash] holds a record with that
    fingerprint, [False] exactly when it holds none.  When the query
    fails, the error is caught and printed and the answer is [False],
    whether or not the record exists, so the frame is treated as
    stale. *)
Theorem check_data_hash_fails_open (self : DBops) fp w :
  hd None (faults w) = None ->
  let o := check_data_hash self (Some fp) w in
  let cursor_fault := nth 1 (faults w) None in
  let select_fault := nth 2 (faults w) None in
  let recorded :=
    exists r, In r (data_hash (store w)) /\ file_hash r = Some fp in
  (exists b,
     result o = inr b /\
     (faulted (trace o) = true -> b = false) /\
     (faulted (trace o) = false -> (b = true <-> recorded)))
  /\
  (faulted (trace o) = false
   <-> cursor_fault = None /\ select_fault = None)
  /\
  (cursor_fault = None -> select_fault = None ->
   trace o = [EvExecute (SelectHashExists (Some fp));
              EvPrint "Checking data hash in database"] /\
   (result o = inr true <-> recorded) /\
   (result o = inr false <-> ~ recorded))
  /\
  (forall msg,
     cursor_fault = Some msg
     \/ (cursor_fault = None /\ select_fault = Some msg) ->
     result o = inr false /\
     trace o = [EvFault msg; EvPrint ("Error checking data hash: " ++ msg)]).
Proof.
  intros Hconn o cursor_fault select_fault recorded.
  pose proof (check_data_hash_by_faults self (Some fp) w Hconn) as H.
  cbv zeta in H. fold o cursor_fault select_fault in H.
  pose proof (hash_exists_iff fp (store w)) as Hrec. fold recorded in Hrec.
  destruct cursor_fault as [m1|]; [|destruct select_fault as [m2|]];
    destruct H as (Hr & Ht); rewrite Hr, Ht.
  1, 2: conjuncts.
  1, 5: exists false; conjuncts;
          [reflexivity | reflexivity | discriminate].
  1, 4: split; [discriminate | intros (H1 & H2); discriminate].
  1: discriminate.
  2: intros _; discriminate.
  1, 2: intros msg [Hm | (Hm & Hm')]; try discriminate;
        injection Hm as <- || injection Hm' as <-; split; reflexivity.
  conjuncts.
  - exists (hash_exists (Some fp) (store w)). conjuncts;
      [reflexivity | discriminate | intros _; exact Hrec].
  - split; [split; reflexivity | reflexivity].
  - intros _ _. conjuncts; [reflexivity| |].
    + rewrite <- Hrec. split; congruence.
    + rewrite <- Hrec. destruct (hash_exists (Some fp) (store w));
        split; congruence.
  - intros msg [Hm | (_ & Hm)]; discriminate.
Qed.

(** C7. The fingerprint is a function of the serialised bytes alone:
    [calculate_file_hash] returns the digest of its argument whatever
    the instance and the world, never takes its handler, prints nothing
    and changes nothing.  So two frames with byte-identical
    serialisation, and in particular one frame hashed twice, get the
    same fingerprint. *)
Theorem fingerprint_is_deterministic (self1 self2 : DBops) D1 D2 w1 w2 :
  pickle_dumps D1 = pickle_dumps D2 ->
  let o1 := calculate_file_hash self1 (pickle_dumps D1) w1 in
  let o2 := calculate_file_hash self2 (pickle_dumps D2) w2 in
  result o1 = inr (fingerprint D1) /\ result o1 = result o2 /\
  final o1 = w1 /\ trace o1 = [].
Proof.
  intros Heq. cbn. unfold fingerprint. rewrite Heq. auto.
Qed.

(** Decides a goal about the events of a trace from what is known of
    its parts. *)
Ltac trace_facts :=
  unfold writes_nothing, calls_provider, faulted in *;
  repeat first [ rewrite forallb_app | rewrite existsb_app
               | progress cbn [forallb existsb negb andb orb app
                               is_storage_write is_embed is_fault
                               is_hash_write is_commit] ];
  repeat match goal with
    | H : forallb _ _ = _ |- _ => rewrite H
    | H : existsb _ _ = _ |- _ => rewrite H
    end;
  cbn; rewrite ?orb_true_r, ?andb_true_r; try reflexivity.

Lemma index_contains_In label index :
  index_contains label index = true <-> In label index.
Proof.
  unfold index_contains. rewrite existsb_exists. split.
  - intros (x & Hin & Heq). apply String.eqb_eq in Heq. subst. exact Hin.
  - intros Hin. exists label. split; [exact Hin | apply String.eqb_refl].
Qed.

Lemma lacks_required_column D :
  ~ In "questions"%string (columns D) \/ ~ In "answers"%string (columns D) ->
  has_required_columns D = false.
Proof.
  unfold has_required_columns.
  destruct (index_contains "questions" (columns D)) eqn:Eq;
    destruct (index_contains "answers" (columns D)) eqn:Ea;
    try reflexivity.
  intros [H | H]; exfalso; apply H; apply index_contains_In; assumption.
Qed.

(** C4. When [check_data_hash] reports the frame as stale and the
    frame lacks the [questions] or the [answers] column,
    [process_local_file] raises the [ValueError] of its schema check;
    no modifying statement is sent, nothing is committed, the tables
    and sequences are as before, and the provider has not been called:
    the check of the columns comes before the call of
    [embed_documents]. *)
Theorem missing_columns_rejected (self : DBops) D w :
  ~ In "questions"%string (columns D) \/ ~ In "answers"%string (columns D) ->
  result (check_data_hash self (fingerprint D) w) = inr false ->
  let o := process_local_file self D w in
  result o = inl missing_columns /\
  store (final o) = store w /\
  faq_seq (final o) = faq_seq w /\ hash_seq (final o) = hash_seq w /\
  writes_nothing (trace o) = true /\ calls_provider (trace o) = false.
Proof.
  intros Hlack. pose proof (lacks_required_column D Hlack) as Hcols.
  unfold_run. rewrite Hcols.
  destruct (check_data_hash_outcome self (fingerprint D) w)
    as (Hs & Hfq & Hhq & Hw & He & _).
  destruct (check_data_hash self (fingerprint D) w) as [rc wc tc].
  cbn in *. intros ->. cbn. conjuncts; auto; trace_facts.
Qed.

(** C3. Suppose the run reaches the provider call, which is made on
    the cells [qs] of the [questions] column, and the provider fails
    with message [msg].  Then [process_local_file] raises the provider
    error, no modifying statement has been sent and nothing has been
    committed: [faq_embeddings], [data_hash] and both sequences are
    exactly as before the run. *)
Theorem provider_failure_writes_nothing (self : DBops) D w qs msg :
  getitem_tolist D "questions" = inr qs ->
  embeddings self qs = inl msg ->
  let o := process_local_file self D w in
  calls_provider (trace o) = true ->
  result o = inl (EmbeddingError msg) /\
  store (final o) = store w /\
  faq_seq (final o) = faq_seq w /\ hash_seq (final o) = hash_seq w /\
  writes_nothing (trace o) = true.
Proof.
  intros Hq He. unfold_run. rewrite Hq, He.
  destruct (check_data_hash_outcome self (fingerprint D) w)
    as (Hs & Hfq & Hhq & Hw & Hp & _).
  destruct (check_data_hash self (fingerprint D) w) as [[e|[|]] wc tc];
    cbn in *.
  1, 2: intros Hc; exfalso; revert Hc; trace_facts; discriminate.
  destruct (has_required_columns D); cbn.
  2: intros Hc; exfalso; revert Hc; trace_facts; discriminate.
  destruct (getitem_tolist D "answers") as [e|ans]; cbn.
  1: intros Hc; exfalso; revert Hc; trace_facts; discriminate.
  intros _. conjuncts; auto; trace_facts.
Qed.

Lemma split_after_quiet_prefix P : forall rest pre s post,
  existsb is_hash_write P = false ->
  P ++ rest = pre ++ EvExecute s :: post ->
  modifies_hash s = true ->
  exists after, pre = P ++ after /\ rest = after ++ EvExecute s :: post.
Proof.
  induction P as [|x P IH]; intros rest pre s post Hq Heq Hs.
  - exists pre. auto.
  - cbn in Hq. apply orb_false_iff in Hq. destruct Hq as [Hx HP].
    destruct pre as [|y pre]; cbn in Heq; injection Heq as -> Heq.
    + cbn in Hx. congruence.
    + destruct (IH _ _ _ _ HP Heq Hs) as (after & -> & ->).
      exists after. auto.
Qed.

Lemma writes_nothing_no_hash_write tr :
  writes_nothing tr = true -> existsb is_hash_write tr = false.
Proof.
  unfold writes_nothing. induction tr as [|e tr IH]; cbn; [reflexivity|].
  intros H. apply andb_true_iff in H. destruct H as [He Ht].
  rewrite (IH Ht), orb_false_r.
  destruct e as [| |s| |]; cbn in *; try reflexivity.
  unfold is_write in He. destruct (modifies_hash s); [|reflexivity].
  rewrite orb_true_r in He. discriminate.
Qed.

Lemma quiet_trace_has_no_hash_write T pre s post :
  existsb is_hash_write T = false ->
  T = pre ++ EvExecute s :: post ->
  modifies_hash s = true -> False.
Proof.
  intros Hq Heq Hs. rewrite <- (app_nil_r T) in Heq.
  destruct (split_after_quiet_prefix _ _ _ _ _ Hq Heq Hs) as (after & _ & Hnil).
  destruct after; discriminate.
Qed.

Lemma replace_events_no_hash_write args t :
  existsb is_hash_write (replace_events args t) = false.
Proof.
  unfold replace_events. cbn. rewrite existsb_app.
  destruct (inserts_quiet args) as (-> & _). reflexivity.
Qed.

Lemma split_around before R : forall rest pre s post,
  existsb is_hash_write before = false ->
  existsb is_hash_write R = false ->
  before ++ R ++ rest = pre ++ EvExecute s :: post ->
  modifies_hash s = true ->
  exists after, pre = before ++ R ++ after.
Proof.
  intros rest pre s post Hb HR Heq Hs. rewrite app_assoc in Heq.
  destruct (split_after_quiet_prefix (before ++ R) rest pre s post)
    as (after & -> & _); auto.
  - rewrite existsb_app, Hb, HR. reflexivity.
  - exists after. rewrite app_assoc. reflexivity.
Qed.

Lemma split_around_cons2 b1 x y R : forall rest pre s post,
  existsb is_hash_write b1 = false ->
  is_hash_write x = false -> is_hash_write y = false ->
  existsb is_hash_write R = false ->
  b1 ++ x :: y :: R ++ rest = pre ++ EvExecute s :: post ->
  modifies_hash s = true ->
  exists after, pre = (b1 ++ [x; y]) ++ R ++ after.
Proof.
  intros rest pre s post Hb Hx Hy HR Heq Hs.
  apply (split_around (b1 ++ [x; y]) R rest pre s post); auto.
  - rewrite existsb_app, Hb. cbn. rewrite Hx, Hy. reflexivity.
  - rewrite <- app_assoc. exact Heq.
Qed.

(** C1. In every run, a statement that modifies [data_hash] (the
    [DELETE FROM data_hash] or the insertion of the fingerprint) is
    sent only after the whole row replacement of [insert_data] has
    happened: before it the trace holds, in this order, the
    [DELETE FROM faq_embeddings], the insertion of every row built from
    the frame and the provider's answer, and the commit that makes
    exactly these rows the content of [faq_embeddings]. *)
Theorem rows_replaced_before_hash_touched (self : DBops) D w pre s post :
  trace (process_local_file self D w) = pre ++ EvExecute s :: post ->
  modifies_hash s = true ->
  exists qs ans es before after,
    getitem_tolist D "questions" = inr qs /\
    getitem_tolist D "answers" = inr ans /\
    embeddings self qs = inr es /\
    pre = before
          ++ replace_events (insert_args qs ans es)
               {| faq_embeddings :=
                    faq_rows_from (faq_seq w) (insert_args qs ans es);
                  data_hash := data_hash (store w) |}
          ++ after.
Proof.
  unfold_run. explore.
  all: repeat match goal with
         | H : writes_nothing _ = true |- _ =>
             apply writes_nothing_no_hash_write in H
         end.
  all: try solve
    [ intros Ht Hs; exfalso;
      refine (quiet_trace_has_no_hash_write _ _ _ _ Ht Hs); trace_facts ].
  all: chain; intros Ht Hs.
  all: match type of Ht with
       | ?a :: ?b :: ?c :: ?d :: replace_events ?args ?t ++ ?rest = _ =>
           destruct (split_around [a; b; c; d] (replace_events args t)
                       rest _ _ _ eq_refl
                       (replace_events_no_hash_write _ _) Ht Hs)
             as [after ->]
       | ?t0 ++ ?x :: ?y :: replace_events ?args ?t ++ ?rest = _ =>
           match goal with
           | Hq : existsb is_hash_write t0 = false |- _ =>
               destruct (split_around_cons2 t0 x y (replace_events args t)
                           rest _ _ _ Hq eq_refl eq_refl
                           (replace_events_no_hash_write _ _) Ht Hs)
                 as [after ->]
           end
       end.
  all: do 5 eexists; conjuncts; first [reflexivity | eassumption].
Qed.

(** What the handlers of the two hash methods do with a failure on a
    connection the pool handed out: the error is printed right after
    it occurred, and the method returns normally. *)
Lemma delete_all_data_hashes_caught (self : DBops) w :
  hd None (faults w) = None ->
  let o := delete_all_data_hashes self w in
  result o = inr tt /\
  (faulted (trace o) = true ->
   exists before msg,
     trace o
     = before ++ [EvFault msg;
                  EvPrint ("Error deleting all data hashes: " ++ msg)]).
Proof.
  destruct w as [st tx fq hq fs]. run_model. split_faults.
  all: intros Hconn; try discriminate Hconn.
  all: split; [reflexivity|]; intros Hf; try discriminate Hf.
  all: first [ exists []; eexists; reflexivity
             | exists [EvExecute DeleteHashes]; eexists; reflexivity ].
Qed.

Lemma update_data_hash_caught (self : DBops) h w :
  hd None (faults w) = None ->
  let o := update_data_hash self h w in
  result o = inr tt /\
  (faulted (trace o) = true ->
   exists before msg,
     trace o
     = before ++ [EvFault msg;
                  EvPrint ("Error updating data hash: " ++ msg)]).
Proof.
  destruct w as [st tx fq hq fs]. run_model. split_faults.
  all: intros Hconn; try discriminate Hconn.
  all: split; [reflexivity|]; intros Hf; try discriminate Hf.
  all: first [ exists []; eexists; reflexivity
             | exists [EvExecute (InsertHash h);
                       EvPrint "Updating data hash in database"];
               eexists; reflexivity ].
Qed.

(** C9, as the code has it.  A storage failure inside [insert_data],
    [delete_all_data_hashes] or [update_data_hash] aborts that unit:
    the unit commits nothing and the committed tables are what they
    were before it.  A failure inside [insert_data] is raised to the
    caller, so it ends [process_local_file] before any statement on
    [data_hash] is sent.  A failure of the statement or of the commit
    inside [delete_all_data_hashes] or [update_data_hash] is caught and
    printed, and the method returns normally.  The refresh then goes
    on: after the row replacement, whether or not
    [delete_all_data_hashes] failed, [update_data_hash] is run on the
    state the deletion left, and when one of the two failed the run
    still prints that the database was updated and returns normally
    with the new rows in place. *)
Theorem storage_failure_commits_nothing (self : DBops) :
  (forall qs ans es w,
     let o := insert_data self qs ans es w in
     faulted (trace o) = true ->
     (exists msg, result o = inl (DatabaseError msg)) /\
     store (final o) = store w /\ existsb is_commit (trace o) = false)
  /\
  (forall D w qs ans es,
     let c := check_data_hash self (fingerprint D) w in
     let i := insert_data self qs ans es (final c) in
     let o := process_local_file self D w in
     result c = inr false -> has_required_columns D = true ->
     getitem_tolist D "questions" = inr qs ->
     getitem_tolist D "answers" = inr ans ->
     embeddings self qs = inr es ->
     faulted (trace i) = true ->
     result o = result i /\ store (final o) = store w /\
     existsb is_hash_write (trace o) = false)
  /\
  (forall w,
     let o := delete_all_data_hashes self w in
     faulted (trace o) = true ->
     store (final o) = store w /\ existsb is_commit (trace o) = false /\
     (hd None (faults w) = None ->
      result o = inr tt /\
      exists before msg,
        trace o
        = before ++ [EvFault msg;
                     EvPrint ("Error deleting all data hashes: " ++ msg)]))
  /\
  (forall h w,
     let o := update_data_hash self h w in
     faulted (trace o) = true ->
     store (final o) = store w /\ existsb is_commit (trace o) = false /\
     (hd None (faults w) = None ->
      result o = inr tt /\
      exists before msg,
        trace o
        = before ++ [EvFault msg;
                     EvPrint ("Error updating data hash: " ++ msg)]))
  /\
  (forall D w qs ans es,
     let c := check_data_hash self (fingerprint D) w in
     let i := insert_data self qs ans es (final c) in
     let d := delete_all_data_hashes self (final i) in
     let u := update_data_hash self (fingerprint D) (final d) in
     let o := process_local_file self D w in
     result c = inr false -> has_required_columns D = true ->
     getitem_tolist D "questions" = inr qs ->
     getitem_tolist D "answers" = inr ans ->
     embeddings self qs = inr es ->
     result i = inr tt ->
     hd None (faults (final i)) = None ->
     hd None (faults (final d)) = None ->
     faulted (trace d) = true \/ faulted (trace u) = true ->
     result o = inr tt /\ final o = final u /\
     trace o
     = trace c
       ++ [EvPrint "Data hash mismatch found. Updating database...";
           EvEmbed qs]
       ++ trace i ++ trace d ++ trace u
       ++ [EvPrint "Database updated with new data and data hash"] /\
     faq_embeddings (store (final o)) = faq_embeddings (store (final i)) /\
     (faulted (trace d) = true ->
      data_hash (store (final d)) = data_hash (store w)) /\
     (faulted (trace u) = true ->
      data_hash (store (final o)) = data_hash (store (final d)))).
Proof.
  conjuncts.
  - intros qs ans es w o Hf. subst o.
    destruct (insert_data_outcome self qs ans es w)
      as (_ & _ & _ & [(Hc & _) | (_ & Hr & Hs & Hc)]); [congruence|auto].
  - intros D w qs ans es. cbv zeta. unfold_run.
    intros Hrc Hcols Hq Ha He. rewrite Hcols, Hq, Ha, He.
    destruct (check_data_hash_outcome self (fingerprint D) w)
      as (Hs & _ & _ & Hw & _).
    apply writes_nothing_no_hash_write in Hw.
    destruct (check_data_hash self (fingerprint D) w) as [rc wc tc].
    cbn in *. subst rc. cbn.
    destruct (insert_data_outcome self qs ans es wc)
      as (_ & Hh & _ & [(Hc & _) | (_ & (msg & Hr) & Hsi & _)]).
    + intros Hf. congruence.
    + intros _. destruct (insert_data self qs ans es wc) as [ri wi ti].
      cbn in *. subst ri. cbn. conjuncts; [reflexivity|congruence|].
      rewrite existsb_app, Hw. cbn. exact Hh.
  - intros w o Hf. subst o.
    destruct (delete_all_data_hashes_outcome self w)
      as (_ & _ & _ & [(Hc & _) | (_ & Hs & Hc & _)]); [congruence|].
    conjuncts; auto. intros Hconn.
    destruct (delete_all_data_hashes_caught self w Hconn) as (Hr & Hp).
    auto.
  - intros h w o Hf. subst o.
    destruct (update_data_hash_outcome self h w)
      as (_ & _ & [(Hc & _) | (_ & Hs & Hc & _)]); [congruence|].
    conjuncts; auto. intros Hconn.
    destruct (update_data_hash_caught self h w Hconn) as (Hr & Hp).
    auto.
  - intros D w qs ans es. cbv zeta. unfold_run.
    intros Hrc Hcols Hq Ha He. rewrite Hcols, Hq, Ha, He.
    destruct (check_data_hash_outcome self (fingerprint D) w)
      as (Hsc & _).
    destruct (check_data_hash self (fingerprint D) w) as [rc wc tc].
    cbn [result final trace] in *. subst rc. cbn [negb].
    destruct (insert_data_outcome self qs ans es wc)
      as (_ & _ & _ & Hi).
    destruct (insert_data self qs ans es wc) as [ri wi ti].
    cbn [result final trace] in *. intros ->.
    assert (Hsi : data_hash (store wi) = data_hash (store w)).
    { destruct Hi as [(_ & _ & Hs & _) | (_ & (msg & Hr) & _)];
        [rewrite Hs, <- Hsc; reflexivity | discriminate Hr]. }
    clear Hi. intros Hd0.
    destruct (delete_all_data_hashes_caught self wi Hd0) as (Hrd & _).
    pose proof (delete_all_data_hashes_outcome self wi) as Hd.
    cbv zeta in Hd.
    destruct (delete_all_data_hashes self wi) as [rd wd td].
    cbn [result final trace] in *. subst rd. intros Hu0.
    destruct (update_data_hash_caught self (fingerprint D) wd Hu0)
      as (Hru & _).
    pose proof (update_data_hash_outcome self (fingerprint D) wd) as Hu.
    cbv zeta in Hu.
    destruct (update_data_hash self (fingerprint D) wd) as [ru wu tu].
    cbn [result final trace] in *. subst ru. intros _.
    cbn [result final trace app].
    conjuncts.
    + reflexivity.
    + reflexivity.
    + reflexivity.
    + destruct Hd as (_ & _ & _ & [(_ & _ & Hd & _) | (_ & Hd & _)]);
        destruct Hu as (_ & _ & [(_ & _ & Hu & _) | (_ & Hu & _)]);
        rewrite Hu, ?Hd; reflexivity.
    + intros Hf.
      destruct Hd as (_ & _ & _ & [(Hc & _) | (_ & Hd & _)]);
        [congruence | rewrite Hd; exact Hsi].
    + intros Hf.
      destruct Hu as (_ & _ & [(Hc & _) | (_ & Hu & _)]);
        [congruence | rewrite Hu; reflexivity].
Qed.

(** * Further properties of the code *)

(** ** Invariants of the world across a computation *)

Lemma keeps_ret {A} P (x : A) : keeps P (ret x).
Proof. intros w H. exact H. Qed.

Lemma keeps_raise {A} P e : keeps P (@raise A e).
Proof. intros w H. exact H. Qed.

Lemma keeps_lift {A} P (r : exn + A) : keeps P (lift r).
Proof. intros w H. exact H. Qed.

Lemma keeps_print P line : keeps P (print line).
Proof. intros w H. exact H. Qed.

Lemma keeps_bind {A B} P (m : M A) (k : A -> M B) :
  keeps P m -> (forall x, keeps P (k x)) -> keeps P (bind m k).
Proof.
  intros Hm Hk w H. unfold bind. specialize (Hm w H).
  destruct (m w) as [[e|x] w1 t1]; cbn in *; [exact Hm|].
  specialize (Hk x w1 Hm). destruct (k x w1) as [r w2 t2]. exact Hk.
Qed.

Lemma keeps_try_except {A} P (body : M A) handler :
  keeps P body -> (forall e, keeps P (handler e)) ->
  keeps P (try_except body handler).
Proof.
  intros Hb Hh w H. unfold try_except. specialize (Hb w H).
  destruct (body w) as [[e|x] w1 t1]; cbn in *; [|exact Hb].
  specialize (Hh e w1 Hb). destruct (handler e w1) as [r w2 t2]. exact Hh.
Qed.

Lemma keeps_embed_documents P (self : DBops) texts :
  keeps P (embed_documents self texts).
Proof.
  intros w H. unfold embed_documents, bind, emit. cbn.
  destruct (embeddings self texts); exact H.
Qed.

(** [process_local_file] keeps whatever its four storage methods keep. *)
Lemma keeps_process_local_file P (self : DBops) :
  (forall h, keeps P (check_data_hash self h)) ->
  (forall qs ans es, keeps P (insert_data self qs ans es)) ->
  keeps P (delete_all_data_hashes self) ->
  (forall h, keeps P (update_data_hash self h)) ->
  forall D, keeps P (process_local_file self D).
Proof.
  intros Hc Hi Hd Hu D. unfold process_local_file, calculate_file_hash.
  apply keeps_bind.
  { apply keeps_try_except; [apply keeps_ret|].
    intros e. apply keeps_bind; [apply keeps_print | intros; apply keeps_ret]. }
  intros fh. apply keeps_bind; [apply Hc|].
  intros [|]; cbn [negb]; [apply keeps_print|].
  apply keeps_bind; [apply keeps_print|]. intros _.
  destruct (_ && _); [|apply keeps_raise].
  apply keeps_bind; [apply keeps_lift|]. intros qs.
  apply keeps_bind; [apply keeps_lift|]. intros ans.
  apply keeps_bind; [apply keeps_embed_documents|]. intros es.
  apply keeps_bind; [apply Hi|]. intros _.
  apply keeps_bind; [apply Hd|]. intros _.
  apply keeps_bind; [apply Hu|]. intros _.
  apply keeps_print.
Qed.

Lemma with_connection_released {A} (func : connection -> M A) :
  keeps (fun w => txn w = Idle) (with_connection func).
Proof.
  intros w Hw. unfold with_connection, get_database_connection, getconn,
    bind, try_finally, putconn, storage_call.
  destruct w as [st tx fq hq fs]. cbn in *. subst tx.
  destruct (hd None fs) as [msg|]; cbn; [reflexivity|].
  destruct (func Conn _) as [r w1 [|]]; destruct r; reflexivity.
Qed.

(** X1. Scoped acquisition: whatever the wrapped function does (return,
    raise, leave a transaction open or aborted), [with_connection]
    gives the connection back with no transaction open.  Hence
    [process_local_file] never leaves a transaction open either,
    however it ends. *)
Theorem connection_is_always_released (self : DBops) :
  (forall A (func : connection -> M A) w,
     txn w = Idle -> txn (final (with_connection func w)) = Idle)
  /\
  (forall D w,
     txn w = Idle -> txn (final (process_local_file self D w)) = Idle).
Proof.
  split.
  - intros A func. apply with_connection_released.
  - intros D.
    apply (@keeps_process_local_file (fun w => txn w = Idle) self);
      intros; apply with_connection_released.
Qed.

(** ** The sequences only move forward *)

Lemma update_data_hash_seq (self : DBops) h w :
  let o := update_data_hash self h w in
  hash_seq w <= hash_seq (final o) /\
  (faulted (trace o) = false -> hash_seq (final o) = S (hash_seq w)).
Proof.
  destruct w as [st tx fq hq fs]. run_model. split_faults.
  all: split; [lia | first [reflexivity | discriminate]].
Qed.

Lemma execute_batch_seq args : forall w,
  let o := execute_batch Cursor insert_faq_sql args w in
  faq_seq w <= faq_seq (final o) /\
  (result o = inr tt -> txn w <> Failed ->
   faq_seq (final o) = faq_seq w + List.length args).
Proof.
  induction args as [|[[q a] emb] rest IH]; intros w.
  - cbn. split; [lia|]. intros _ _. lia.
  - destruct w as [st tx fq hq fs]. cbn [execute_batch]. run_model.
    destruct fs as [|[msg|] fs]; cbn.
    2: { split; [lia | discriminate]. }
    all: destruct tx as [|t|]; cbn.
    all: try solve [split; [lia | first [discriminate | congruence]]].
    all: match goal with
         | |- context [execute_batch Cursor insert_faq_sql ?l ?w1] =>
             specialize (IH w1); cbv zeta in IH;
             destruct (execute_batch Cursor insert_faq_sql l w1)
               as [r wf tr]
         end; cbn in *.
    all: destruct IH as [Hle Heq]; split; [lia|].
    all: intros Hr _; rewrite (Heq Hr); [lia | discriminate].
Qed.

Lemma insert_data_seq (self : DBops) qs ans es w :
  let o := insert_data self qs ans es w in
  faq_seq w <= faq_seq (final o) /\
  (faulted (trace o) = false ->
   faq_seq (final o)
   = faq_seq w + List.length (insert_args qs ans es)).
Proof.
  unfold insert_data. generalize (insert_args qs ans es) as args. intros args.
  destruct w as [st tx fq hq fs]. run_model. split_faults.
  all: try solve [split; [lia | discriminate]].
  all: match goal with
       | |- context [execute_batch Cursor insert_faq_sql ?l ?w1] =>
           pose proof (execute_batch_seq l w1) as H; cbv zeta in H;
           pose proof (@execute_batch_outcome l w1 _ eq_refl) as H';
           cbv zeta in H';
           destruct (execute_batch Cursor insert_faq_sql l w1)
             as [r [st' tx' fq' hq' fs'] tr]
       end; cbn in H, H'.
  all: destruct H as [Hle Heq].
  all: destruct H' as (_ & _ & [(Hf & Hr & Htx & _) | (Hf & (m & Hr) & _)]);
    subst; cbn.
  all: try (specialize (Heq eq_refl ltac:(discriminate))).
  all: try (destruct fs' as [|[msg|] fs']; cbn).
  all: unfold faulted in *; rewrite ?existsb_app, ?Hf; cbn;
    rewrite ?orb_true_r.
  all: split; [lia | first [intros _; lia | discriminate]].
Qed.

(** ** The key constraints are kept *)

Lemma faq_ids_from args : forall id,
  map faq_id (faq_rows_from id args) = seq id (List.length args).
Proof.
  induction args as [|[[q a] e] rest IH]; intros id; cbn; [reflexivity|].
  rewrite IH. reflexivity.
Qed.

Lemma recorded_In x rows :
  In x (recorded rows)
  <-> exists r, In r rows /\ file_hash r = Some x.
Proof.
  unfold recorded. rewrite in_flat_map. split.
  - intros (r & Hin & Hx). exists r. split; [exact Hin|].
    destruct (file_hash r) as [h|]; cbn in Hx; [|contradiction].
    destruct Hx as [<- | []]. reflexivity.
  - intros (r & Hin & Hr). exists r. split; [exact Hin|].
    rewrite Hr. left. reflexivity.
Qed.

Lemma NoDup_snoc {A} (l : list A) x :
  NoDup l -> ~ In x l -> NoDup (l ++ [x]).
Proof.
  intros Hl Hx. induction Hl as [|y l Hy Hl IH]; cbn.
  - constructor; [intros []|constructor].
  - constructor.
    + rewrite in_app_iff. intros [H | [H | []]]; [auto|].
      subst. apply Hx. left. reflexivity.
    + apply IH. intros H. apply Hx. right. exact H.
Qed.

Lemma keys_valid_later w w' :
  store w' = store w ->
  faq_seq w <= faq_seq w' -> hash_seq w <= hash_seq w' ->
  keys_valid w -> keys_valid w'.
Proof.
  unfold keys_valid. intros -> Hf Hh (H1 & H2 & H3 & H4 & H5).
  conjuncts; auto.
  - eapply Forall_impl; [|exact H2]. cbn. intros. lia.
  - eapply Forall_impl; [|exact H4]. cbn. intros. lia.
Qed.

Lemma keys_valid_rows_replaced w w' args :
  store w'
  = {| faq_embeddings := faq_rows_from (faq_seq w) args;
       data_hash := data_hash (store w) |} ->
  faq_seq w' = faq_seq w + List.length args ->
  hash_seq w' = hash_seq w ->
  keys_valid w -> keys_valid w'.
Proof.
  unfold keys_valid. intros -> Hf -> (H1 & H2 & H3 & H4 & H5). cbn.
  conjuncts; auto.
  - rewrite faq_ids_from. apply seq_NoDup.
  - apply Forall_forall. intros r Hr.
    apply (in_map faq_id) in Hr. rewrite faq_ids_from, in_seq in Hr. lia.
Qed.

Lemma keys_valid_hashes_deleted w w' :
  store w'
  = {| faq_embeddings := faq_embeddings (store w); data_hash := [] |} ->
  faq_seq w' = faq_seq w -> hash_seq w' = hash_seq w ->
  keys_valid w -> keys_valid w'.
Proof.
  unfold keys_valid. intros -> -> -> (H1 & H2 & H3 & H4 & H5). cbn.
  conjuncts; auto; constructor.
Qed.

Lemma keys_valid_hash_inserted w w' h :
  store w'
  = {| faq_embeddings := faq_embeddings (store w);
       data_hash :=
         if hash_exists h (store w) then data_hash (store w)
         else data_hash (store w)
              ++ [{| hash_id := hash_seq w; file_hash := h |}] |} ->
  faq_seq w' = faq_seq w -> hash_seq w' = S (hash_seq w) ->
  keys_valid w -> keys_valid w'.
Proof.
  unfold keys_valid. intros -> -> -> (H1 & H2 & H3 & H4 & H5). cbn.
  destruct (hash_exists h (store w)) eqn:Hex.
  - conjuncts; auto. eapply Forall_impl; [|exact H4]. cbn. intros. lia.
  - conjuncts; auto.
    + rewrite map_app. cbn. apply NoDup_snoc; [exact H3|].
      intros Hin. apply in_map_iff in Hin. destruct Hin as (r & Hid & Hr).
      rewrite Forall_forall in H4. specialize (H4 r Hr). lia.
    + apply Forall_app. split.
      * eapply Forall_impl; [|exact H4]. cbn. intros. lia.
      * constructor; [cbn; lia | constructor].
    + unfold recorded in *. rewrite flat_map_app. cbn.
      destruct h as [x|]; cbn; [|rewrite app_nil_r; exact H5].
      apply NoDup_snoc; [exact H5|].
      intros Hin. apply (recorded_In x) in Hin.
      apply hash_exists_iff in Hin. congruence.
Qed.

Lemma keys_valid_check (self : DBops) h :
  keeps keys_valid (check_data_hash self h).
Proof.
  intros w Hw.
  destruct (check_data_hash_outcome self h w) as (Hs & Hf & Hh & _).
  apply keys_valid_later with (w := w); auto; lia.
Qed.

Lemma keys_valid_insert (self : DBops) qs ans es :
  keeps keys_valid (insert_data self qs ans es).
Proof.
  intros w Hw.
  destruct (insert_data_seq self qs ans es w) as [Hle Heq].
  destruct (insert_data_outcome self qs ans es w)
    as (Hh & _ & _ & [(Hf & _ & Hs & _) | (_ & _ & Hs & _)]).
  - apply keys_valid_rows_replaced
      with (w := w) (args := insert_args qs ans es); auto.
  - apply keys_valid_later with (w := w); auto; lia.
Qed.

Lemma keys_valid_delete (self : DBops) :
  keeps keys_valid (delete_all_data_hashes self).
Proof.
  intros w Hw.
  destruct (delete_all_data_hashes_outcome self w)
    as (Hf & Hh & _ & [(_ & _ & Hs & _) | (_ & Hs & _)]).
  - apply keys_valid_hashes_deleted with (w := w); auto.
  - apply keys_valid_later with (w := w); auto; lia.
Qed.

Lemma keys_valid_update (self : DBops) h :
  keeps keys_valid (update_data_hash self h).
Proof.
  intros w Hw.
  destruct (update_data_hash_seq self h w) as [Hle Heq].
  destruct (update_data_hash_outcome self h w)
    as (Hf & _ & [(Hc & _ & Hs & _) | (_ & Hs & _)]).
  - apply keys_valid_hash_inserted with (w := w) (h := h); auto.
  - apply keys_valid_later with (w := w); auto; lia.
Qed.

(** X2. The constraints of the schema survive every run: if before
    [process_local_file] the primary keys of both tables are distinct
    and below their sequences and no fingerprint is recorded twice,
    the same holds after it, whatever the frame, the provider's answer
    and the storage failures on the way. *)
Theorem process_local_file_keeps_keys_valid (self : DBops) D w :
  keys_valid w -> keys_valid (final (process_local_file self D w)).
Proof.
  apply (@keeps_process_local_file keys_valid self).
  - apply keys_valid_check.
  - apply keys_valid_insert.
  - apply keys_valid_delete.
  - apply keys_valid_update.
Qed.

(** ** What the methods never touch *)

(** X3. Under any storage failures: [check_data_hash] changes neither
    table nor sequence and sends no modifying statement;
    [insert_data] never changes [data_hash] or its sequence;
    [delete_all_data_hashes] and [update_data_hash] never change
    [faq_embeddings] or its sequence. *)
Theorem methods_touch_only_their_table (self : DBops) :
  (forall h w,
     let o := check_data_hash self h w in
     store (final o) = store w /\ faq_seq (final o) = faq_seq w /\
     hash_seq (final o) = hash_seq w /\ writes_nothing (trace o) = true)
  /\
  (forall qs ans es w,
     let o := insert_data self qs ans es w in
     data_hash (store (final o)) = data_hash (store w) /\
     hash_seq (final o) = hash_seq w)
  /\
  (forall w,
     let o := delete_all_data_hashes self w in
     faq_embeddings (store (final o)) = faq_embeddings (store w) /\
     faq_seq (final o) = faq_seq w)
  /\
  (forall h w,
     let o := update_data_hash self h w in
     faq_embeddings (store (final o)) = faq_embeddings (store w) /\
     faq_seq (final o) = faq_seq w).
Proof.
  conjuncts.
  - intros h w o. subst o.
    destruct (check_data_hash_outcome self h w) as (Hs & Hf & Hh & Hw & _).
    auto.
  - intros qs ans es w o. subst o.
    destruct (insert_data_outcome self qs ans es w)
      as (Hh & _ & _ & [(_ & _ & Hs & _) | (_ & _ & Hs & _)]);
      rewrite Hs; auto.
  - intros w o. subst o.
    destruct (delete_all_data_hashes_outcome self w)
      as (Hf & _ & _ & [(_ & _ & Hs & _) | (_ & Hs & _)]);
      rewrite Hs; auto.
  - intros h w o. subst o.
    destruct (update_data_hash_outcome self h w)
      as (Hf & _ & [(_ & _ & Hs & _) | (_ & Hs & _)]);
      rewrite Hs; auto.
Qed.

(** ** When the provider answers with too few vectors *)

Lemma length_zip3_min {A B C} (xs : list A) (ys : list B) (zs : list C) :
  List.length (zip3 xs ys zs)
  = Nat.min (List.length xs) (Nat.min (List.length ys) (List.length zs)).
Proof.
  revert ys zs.
  induction xs as [|x xs IH]; intros [|y ys] [|z zs]; cbn; try reflexivity.
  rewrite IH. reflexivity.
Qed.

Lemma questions_of_rows args : forall id,
  map question (faq_rows_from id args) = map (fun a => fst (fst a)) args.
Proof.
  induction args as [|[[q a] e] rest IH]; intros id; cbn; [reflexivity|].
  rewrite IH. reflexivity.
Qed.

Lemma answers_of_rows args : forall id,
  map answer (faq_rows_from id args) = map (fun a => snd (fst a)) args.
Proof.
  induction args as [|[[q a] e] rest IH]; intros id; cbn; [reflexivity|].
  rewrite IH. reflexivity.
Qed.

Lemma zip3_questions {A B C} (xs : list A) (ys : list B) (zs : list C) :
  map (fun a => fst (fst a)) (zip3 xs ys zs)
  = firstn (List.length (zip3 xs ys zs)) xs.
Proof.
  revert ys zs.
  induction xs as [|x xs IH]; intros [|y ys] [|z zs]; cbn; try reflexivity.
  rewrite IH. reflexivity.
Qed.

Lemma zip3_answers {A B C} (xs : list A) (ys : list B) (zs : list C) :
  map (fun a => snd (fst a)) (zip3 xs ys zs)
  = firstn (List.length (zip3 xs ys zs)) ys.
Proof.
  revert ys zs.
  induction xs as [|x xs IH]; intros [|y ys] [|z zs]; cbn; try reflexivity.
  rewrite IH. reflexivity.
Qed.

(** X4. [insert_data] pairs questions, answers and vectors with [zip]:
    when the provider answers with fewer vectors than there are
    questions, a refresh that goes through stores only the first
    [k] pairs, [k] being the shortest of the three lengths, raises
    nothing, and still records the fingerprint of the whole frame, so
    later runs on this frame find it current. *)
Theorem short_answer_truncates_rows (self : DBops) D w qs ans es :
  let o := process_local_file self D w in
  let k := Nat.min (List.length qs)
             (Nat.min (List.length ans) (List.length es)) in
  getitem_tolist D "questions" = inr qs ->
  getitem_tolist D "answers" = inr ans ->
  embeddings self qs = inr es ->
  result o = inr tt -> faulted (trace o) = false ->
  calls_provider (trace o) = true ->
  map question (faq_embeddings (store (final o))) = firstn k qs /\
  map answer (faq_embeddings (store (final o))) = firstn k ans /\
  hash_exists (fingerprint D) (store (final o)) = true.
Proof.
  intros o k Hq Ha He Hr Hf Hp. subst o k.
  pose proof (clean_run self D w) as H. cbv zeta in H.
  destruct (H Hf) as [(_ & _ & _ & Ht) | [(_ & _ & qs' & ans' & es' & Hq' & Ha' & He' & Hs & _) | (_ & (e & Hx) & _)]].
  - rewrite Ht in Hp. discriminate.
  - rewrite Hq in Hq'. injection Hq' as <-.
    rewrite Ha in Ha'. injection Ha' as <-.
    rewrite He in He'. injection He' as <-.
    rewrite Hs. cbn [refreshed faq_embeddings]. conjuncts.
    + rewrite questions_of_rows. unfold insert_args.
      rewrite map_map, <- length_zip3_min, <- zip3_questions.
      apply map_ext. intros [[q a] v]. reflexivity.
    + rewrite answers_of_rows. unfold insert_args.
      rewrite map_map, <- length_zip3_min, <- zip3_answers.
      apply map_ext. intros [[q a] v]. reflexivity.
    + apply refreshed_has_fingerprint.
  - congruence.
Qed.

(** ** The recorded fingerprint vouches for the rows *)

(** X5. A run never records the fingerprint of a frame without having
    replaced the rows first: if the fingerprint of [D] is absent from
    [data_hash] before [process_local_file] and present after it,
    then, whatever failed on the way, [faq_embeddings] holds exactly
    the rows built from the columns of [D] and the provider's answer. *)
Theorem recorded_fingerprint_vouches_for_rows (self : DBops) D w :
  let o := process_local_file self D w in
  hash_exists (fingerprint D) (store w) = false ->
  hash_exists (fingerprint D) (store (final o)) = true ->
  exists qs ans es,
    getitem_tolist D "questions" = inr qs /\
    getitem_tolist D "answers" = inr ans /\
    embeddings self qs = inr es /\
    faq_embeddings (store (final o))
    = faq_rows_from (faq_seq w) (insert_args qs ans es).
Proof.
  unfold_run. explore. all: chain.
  all: intros Hbefore Hafter.
  all: try solve [congruence].
  all: try solve [cbn in Hafter; discriminate].
  all: unfold hash_exists in *.
  all: try solve [congruence].
  all: do 3 eexists; conjuncts; first [reflexivity | eassumption].
Qed.

(** ** The calls of the provider *)

Lemma no_embed_filter tr :
  existsb is_embed tr = false -> filter is_embed tr = [].
Proof.
  induction tr as [|e tr IH]; cbn; [reflexivity|].
  destruct (is_embed e); cbn; [discriminate | exact IH].
Qed.

(** X6. A run calls the provider at most once, and then with the cells
    of the [questions] column, all in one batch. *)
Theorem provider_called_at_most_once (self : DBops) D w :
  let o := process_local_file self D w in
  filter is_embed (trace o) = [] \/
  exists qs,
    getitem_tolist D "questions" = inr qs /\
    filter is_embed (trace o) = [EvEmbed qs].
Proof.
  unfold_run. explore.
  all: unfold calls_provider in *.
  all: repeat first [ rewrite filter_app
                    | progress cbn [filter is_embed app] ].
  all: repeat match goal with
         | H : existsb is_embed ?t = false |- _ =>
             rewrite ?(no_embed_filter t H); clear H
         end.
  all: cbn [app].
  all: first [ left; reflexivity
             | right; eexists; split;
               [first [reflexivity | eassumption] | reflexivity] ].
Qed.

(** ** Failing open *)

(** X7. The hash check fails open for the whole run: when its query
    fails (on a connection the pool did hand out), a frame with both
    columns is refreshed again, the provider being called with its
    questions, even if the fingerprint of the frame is already
    recorded. *)
Theorem failed_check_forces_refresh (self : DBops) D w qs ans :
  hd None (faults w) = None ->
  has_required_columns D = true ->
  getitem_tolist D "questions" = inr qs ->
  getitem_tolist D "answers" = inr ans ->
  faulted (trace (check_data_hash self (fingerprint D) w)) = true ->
  exists before after,
    trace (process_local_file self D w)
    = before
      ++ EvPrint "Data hash mismatch found. Updating database..."
      :: EvEmbed qs :: after.
Proof.
  intros Hconn Hcols Hq Ha. unfold_run. rewrite Hcols, Hq, Ha.
  explore.
  all: intros Hfault; try discriminate Hfault; try congruence.
  all: match goal with
       | |- exists _ _, ?a :: ?b :: ?rest = _ =>
           exists [a; b]; eexists; reflexivity
       | |- exists _ _, ?t ++ _ = _ => exists t; eexists; reflexivity
       end.
Qed.

(** ** When the pool has no connection to give *)

Lemma with_connection_no_connection {A} (func : connection -> M A) w msg :
  hd None (faults w) = Some msg ->
  with_connection func w
  = Outcome (inl (DatabaseError msg)) (set_faults (tl (faults w)) w)
      [EvFault msg].
Proof.
  intros H. unfold with_connection, get_database_connection, getconn, bind,
    storage_call. rewrite H. reflexivity.
Qed.

(** X8. The handlers of the methods sit inside the decorated function,
    so they do not cover the acquisition of the connection: when
    [getconn] raises, the wrapped function is not run at all and the
    error leaves the method, also for [update_data_hash] and
    [delete_all_data_hashes], which catch everything else.  In
    [process_local_file] such a failure at the hash check ends the run
    before anything else happens. *)
Theorem pool_failure_is_not_caught (self : DBops) w msg :
  hd None (faults w) = Some msg ->
  let failed :=
    Outcome (inl (DatabaseError msg)) (set_faults (tl (faults w)) w)
      [EvFault msg] in
  (forall h, result (check_data_hash self h w) = inl (DatabaseError msg)) /\
  (forall h, update_data_hash self h w = failed) /\
  delete_all_data_hashes self w = failed /\
  (forall qs ans es, insert_data self qs ans es w = failed) /\
  (forall D, process_local_file self D w = failed).
Proof.
  intros H failed. subst failed. conjuncts.
  - intros h. unfold check_data_hash.
    rewrite (with_connection_no_connection _ _ H). reflexivity.
  - intros h. apply with_connection_no_connection. exact H.
  - apply with_connection_no_connection. exact H.
  - intros qs ans es. apply with_connection_no_connection. exact H.
  - intros D. unfold process_local_file, calculate_file_hash.
    cbv [bind try_except ret]. unfold check_data_hash.
    rewrite (with_connection_no_connection _ _ H). reflexivity.
Qed.

(** ** Hash records written and read back *)

(** X9. What [update_data_hash] and [delete_all_data_hashes] write is
    what [check_data_hash] reads: after an update that went through,
    a check of the same fingerprint whose query goes through answers
    [True]; after a deletion that went through, it answers [False] for
    every fingerprint. *)
Theorem hash_record_round_trip (self : DBops) fp w :
  (let u := update_data_hash self (Some fp) w in
   let c := check_data_hash self (Some fp) (final u) in
   faulted (trace u) = false -> faulted (trace c) = false ->
   result c = inr true)
  /\
  (let d := delete_all_data_hashes self w in
   let c := check_data_hash self (Some fp) (final d) in
   faulted (trace d) = false -> faulted (trace c) = false ->
   result c = inr false).
Proof.
  split; intros o c Ho Hc; subst o c.
  - destruct (update_data_hash_outcome self (Some fp) w)
      as (_ & _ & [(_ & _ & Hs & _) | (Hf & _)]); [|congruence].
    destruct (check_data_hash_outcome self (Some fp)
                (final (update_data_hash self (Some fp) w)))
      as (_ & _ & _ & _ & _ & [(_ & Hr & _) | (Hf & _)]); [|congruence].
    rewrite Hr, Hs. f_equal. unfold hash_exists. cbn.
    destruct (existsb _ (data_hash (store w))) eqn:E; [exact E|].
    rewrite existsb_app, E. cbn. rewrite String.eqb_refl. reflexivity.
  - destruct (delete_all_data_hashes_outcome self w)
      as (_ & _ & _ & [(_ & _ & Hs & _) | (Hf & _)]); [|congruence].
    destruct (check_data_hash_outcome self (Some fp)
                (final (delete_all_data_hashes self w)))
      as (_ & _ & _ & _ & _ & [(_ & Hr & _) | (Hf & _)]); [|congruence].
    rewrite Hr, Hs. reflexivity.
Qed.

(** X10. [ON CONFLICT (file_hash) DO NOTHING]: recording a fingerprint
    that is already in [data_hash] goes through without an error and
    leaves both tables exactly as they were. *)
Theorem update_data_hash_is_conflict_safe (self : DBops) fp w :
  hash_exists (Some fp) (store w) = true ->
  let o := update_data_hash self (Some fp) w in
  faulted (trace o) = false ->
  result o = inr tt /\ store (final o) = store w.
Proof.
  intros Hex o Ho. subst o.
  destruct (update_data_hash_outcome self (Some fp) w)
    as (_ & _ & [(_ & Hr & Hs & _) | (Hf & _)]); [|congruence].
  split; [exact Hr|]. rewrite Hs, Hex. destruct (store w). reflexivity.
Qed.

(** ** Column labels that occur twice *)

Lemma selected_columns_count (D : DataFrame) label :
  List.length (filter (fun c => String.eqb label (fst c)) D)
  = count_occ string_dec (columns D) label.
Proof.
  unfold columns.
  induction D as [|[l cells] D IH]; [reflexivity|].
  cbn [filter map fst]. destruct (String.eqb label l) eqn:E.
  - apply String.eqb_eq in E. subst l. cbn [List.length].
    rewrite (count_occ_cons_eq string_dec _ eq_refl). f_equal. exact IH.
  - apply String.eqb_neq in E.
    rewrite count_occ_cons_neq by congruence. exact IH.
Qed.

Lemma getitem_tolist_repeated (D : DataFrame) label :
  2 <= count_occ string_dec (columns D) label ->
  getitem_tolist D label
  = inl (AttributeError "'DataFrame' object has no attribute 'tolist'").
Proof.
  rewrite <- selected_columns_count. unfold getitem_tolist.
  destruct (filter _ D) as [|c [|c' rest]]; cbn; [lia | lia | reflexivity].
Qed.

Lemma getitem_tolist_once (D : DataFrame) label :
  count_occ string_dec (columns D) label = 1 ->
  exists cells, getitem_tolist D label = inr cells.
Proof.
  rewrite <- selected_columns_count. unfold getitem_tolist.
  destruct (filter _ D) as [|c [|c' rest]]; cbn; try discriminate.
  eexists. reflexivity.
Qed.

(** X11. The check of the columns only asks whether the two labels
    occur.  A stale frame in which both occur but one of them occurs
    twice passes the check and then fails in [.tolist()], which a
    selection of several columns does not have: the run raises
    [AttributeError], not the [ValueError] of the check, before the
    provider is called and before anything is written. *)
Theorem repeated_label_is_not_caught_by_the_check (self : DBops) D w :
  result (check_data_hash self (fingerprint D) w) = inr false ->
  In "questions"%string (columns D) -> In "answers"%string (columns D) ->
  2 <= count_occ string_dec (columns D) "questions"%string
  \/ 2 <= count_occ string_dec (columns D) "answers"%string ->
  let o := process_local_file self D w in
  has_required_columns D = true /\
  result o
  = inl (AttributeError "'DataFrame' object has no attribute 'tolist'") /\
  store (final o) = store w /\
  writes_nothing (trace o) = true /\ calls_provider (trace o) = false.
Proof.
  intros Hc Hq Ha Hrep.
  assert (Hcols : has_required_columns D = true).
  { unfold has_required_columns.
    apply index_contains_In in Hq. apply index_contains_In in Ha.
    rewrite Hq, Ha. reflexivity. }
  assert (Hsel :
    getitem_tolist D "questions"
    = inl (AttributeError "'DataFrame' object has no attribute 'tolist'")
    \/ exists cells,
         getitem_tolist D "questions" = inr cells /\
         getitem_tolist D "answers"
         = inl (AttributeError
                  "'DataFrame' object has no attribute 'tolist'")).
  { destruct (le_lt_dec 2 (count_occ string_dec (columns D)
                             "questions"%string)) as [H2 | H1].
    - left. apply getitem_tolist_repeated. exact H2.
    - right. apply (count_occ_In string_dec) in Hq.
      destruct (@getitem_tolist_once D "questions"%string) as [cells Hcells];
        [lia|].
      exists cells. split; [exact Hcells|].
      apply getitem_tolist_repeated. destruct Hrep; [lia | assumption]. }
  revert Hc. unfold_run. rewrite Hcols.
  destruct (check_data_hash_outcome self (fingerprint D) w)
    as (Hs & _ & _ & Hw & Hp & _).
  destruct (check_data_hash self (fingerprint D) w) as [rc wc tc].
  cbn in *. intros ->. cbn.
  destruct Hsel as [-> | (cells & -> & ->)]; cbn;
    (split; [reflexivity|]); conjuncts; auto; trace_facts.
Qed.

(** ** Importing the module *)

(** X12. Importing the module stops with the [ValueError] of the key
    check exactly when [OPENAI_API_KEY] is unset or set to the empty
    string, and then before the pool tries to connect.  The database
    settings never stop the import by being absent: with a usable key
    and a server that accepts the first connection, the pool is built
    from [get_db_config], in which every unset variable has its
    default and every set one, even an empty one, is used as it is. *)
Theorem import_needs_only_the_api_key (env : environ) w :
  (env "OPENAI_API_KEY"%string = None
   \/ env "OPENAI_API_KEY"%string = Some EmptyString
   <-> import_module env w = Outcome (inl api_key_missing) w [])
  /\
  (forall key, env "OPENAI_API_KEY"%string = Some key ->
     key <> EmptyString -> hd None (faults w) = None ->
     result (import_module env w) = inr (get_db_config env))
  /\
  (forall name default value,
     In (name, default, value)
        [("DB_USER", "default_user", "user");
         ("DB_PASSWORD", "default_pass", "password");
         ("DB_HOST", "default_host", "host");
         ("DB_PORT", "5432", "port");
         ("DB_NAME", "default_db", "database")]%string ->
     In (value, match env name with Some v => v | None => default end)
        (get_db_config env)).
Proof.
  conjuncts.
  - unfold import_module. split.
    + intros [-> | ->]; reflexivity.
    + destruct (env "OPENAI_API_KEY"%string) as [[|c key]|]; auto.
      unfold bind, storage_call, ret. destruct (hd None (faults w)); cbn;
        intros H; discriminate H.
  - intros key Hkey Hne Hconn. unfold import_module. rewrite Hkey.
    destruct key as [|c key]; [congruence|].
    unfold bind, storage_call, ret. rewrite Hconn. reflexivity.
  - intros name default value Hin. unfold get_db_config, getenv_default.
    cbn in Hin.
    repeat (destruct Hin as [Hin | Hin];
            [injection Hin as <- <- <-; cbn; tauto|]).
    contradiction.
Qed.

(** ** Setting up the tables *)

Lemma setup_database_outcome (self : DBops) db w :
  let o := setup_database self db w in
  store (final o) = store w /\
  ((faulted (trace o) = false /\
    result o = inr (create_tables_if_not_exist db))
   \/
   (faulted (trace o) = true /\
    (result o = inr db \/
     exists msg, result o = inl (DatabaseError msg) /\
                 hd None (faults w) = Some msg))).
Proof.
  destruct w as [st tx fq hq fs].
  unfold setup_database, execute_ddl. run_model. split_faults.
  all: outcome.
Qed.

(** X13. [setup_database] creates what is missing and keeps what is
    there.  Whatever fails, a table that exists is still there with
    the same rows afterwards; the two tables are created together or
    not at all; a failure after the connection was obtained is caught
    (the call returns normally and the schema is as before); and when
    no storage call fails, both tables exist afterwards. *)
Theorem setup_database_creates_or_keeps (self : DBops) db w :
  let o := setup_database self db w in
  (forall db', result o = inr db' ->
     (db' = db \/ db' = create_tables_if_not_exist db) /\
     (forall rows, faq_table db = Some rows -> faq_table db' = Some rows) /\
     (forall rows, hash_table db = Some rows -> hash_table db' = Some rows))
  /\
  (faulted (trace o) = true -> hd None (faults w) = None ->
   result o = inr db)
  /\
  (faulted (trace o) = false ->
   exists faq hashes,
     result o = inr {| faq_table := Some faq; hash_table := Some hashes |}).
Proof.
  intros o. subst o.
  destruct (setup_database_outcome self db w)
    as (_ & [(Hf & Hr) | (Hf & [Hr | (msg & Hr & Hm)])]);
    rewrite Hr, Hf; conjuncts; try discriminate; try congruence.
  all: try solve [intros; reflexivity].
  all: try solve [intros _; do 2 eexists; reflexivity].
  all: intros db' Hdb; injection Hdb as <-; conjuncts; auto.
  all: intros rows H; cbn; rewrite H; reflexivity.
Qed.

(** X14. [setup_database] is idempotent: run again on the schema it
    left, it leaves that schema as it is, whether the second call
    goes through or fails. *)
Theorem setup_database_is_idempotent (self : DBops) db w w2 db1 db2 :
  result (setup_database self db w) = inr db1 ->
  faulted (trace (setup_database self db w)) = false ->
  result (setup_database self db1 w2) = inr db2 ->
  db2 = db1.
Proof.
  intros H1 Hf H2.
  destruct (setup_database_outcome self db w)
    as (_ & [(_ & Hr) | (Hf' & _)]); [|congruence].
  rewrite Hr in H1. injection H1 as <-.
  destruct (setup_database_outcome self (create_tables_if_not_exist db) w2)
    as (_ & [(_ & Hr2) | (_ & [Hr2 | (msg & Hr2 & _)])]);
    rewrite Hr2 in H2; try discriminate; injection H2 as <-; reflexivity.
Qed.

(** ** The durable states of a run *)

Lemma no_commit_In tr t :
  existsb is_commit tr = false -> ~ In (EvCommit t) tr.
Proof.
  intros H Hin. assert (existsb is_commit tr = true); [|congruence].
  apply existsb_exists. exists (EvCommit t). auto.
Qed.

Lemma writes_nothing_no_commit tr :
  writes_nothing tr = true -> existsb is_commit tr = false.
Proof.
  unfold writes_nothing. induction tr as [|e tr IH]; cbn; [reflexivity|].
  intros H. apply andb_true_iff in H. destruct H as [He Ht].
  rewrite (IH Ht), orb_false_r. destruct e; cbn in *; congruence.
Qed.

Lemma inserts_no_commit_In args t :
  ~ In (EvCommit t) (map (fun a => EvExecute (insert_faq_sql a)) args).
Proof.
  apply no_commit_In. destruct (inserts_quiet args) as (_ & H & _). exact H.
Qed.

(** X15. Every state that a run makes durable already has the new
    rows: whatever fails, each commit of [process_local_file] commits
    a [faq_embeddings] table that holds exactly the rows built from
    the frame and the provider's answer.  So a crash at any point
    leaves either the tables as they were before the run or the
    replaced rows. *)
Theorem every_commit_has_the_new_rows (self : DBops) D w t :
  In (EvCommit t) (trace (process_local_file self D w)) ->
  exists qs ans es,
    getitem_tolist D "questions" = inr qs /\
    getitem_tolist D "answers" = inr ans /\
    embeddings self qs = inr es /\
    faq_embeddings t = faq_rows_from (faq_seq w) (insert_args qs ans es).
Proof.
  unfold_run. explore.
  all: repeat match goal with
         | H : writes_nothing _ = true |- _ =>
             apply writes_nothing_no_commit in H
         end.
  all: chain; intros Hin.
  all: unfold replace_events in Hin.
  all: repeat first [ rewrite in_app_iff in Hin
                    | progress cbn [In] in Hin ].
  all: repeat match goal with
         | H : _ \/ _ |- _ => destruct H as [H | H]
         end.
  all: try discriminate.
  all: try contradiction.
  all: try solve [exfalso; eapply inserts_no_commit_In; eassumption].
  all: try solve [ exfalso;
                   match goal with
                   | Hi : In (EvCommit ?c) ?tr,
                     Hc : existsb is_commit ?tr = false |- _ =>
                       exact (no_commit_In tr c Hc Hi)
                   end ].
  all: match goal with
       | H : EvCommit _ = EvCommit ?t |- _ => injection H as H; subst t
       end.
  all: do 3 eexists; conjuncts; first [reflexivity | eassumption].
Qed.

(** ** What a normal return after a refresh guarantees *)

(** X16. When [process_local_file] has called the provider and returns
    normally, the rows have been replaced, but nothing more is
    certain about [data_hash]: since failures of the two hash methods
    are only printed, the table is then in one of four states.  It
    holds the new fingerprint alone (nothing failed); it is empty (the
    update failed); it holds the old records and the new fingerprint
    (the deletion failed); or it holds just the old records (both
    failed), which then stand next to rows they do not describe. *)
Theorem normal_return_after_refresh (self : DBops) D w :
  let o := process_local_file self D w in
  let fp := fingerprint D in
  let old := data_hash (store w) in
  let new := {| hash_id := hash_seq w; file_hash := fp |} in
  result o = inr tt -> calls_provider (trace o) = true ->
  (exists qs ans es,
     getitem_tolist D "questions" = inr qs /\
     getitem_tolist D "answers" = inr ans /\
     embeddings self qs = inr es /\
     faq_embeddings (store (final o))
     = faq_rows_from (faq_seq w) (insert_args qs ans es))
  /\
  (data_hash (store (final o)) = [new]
   \/ data_hash (store (final o)) = []
   \/ data_hash (store (final o))
      = (if hash_exists fp (store w) then old else old ++ [new])
   \/ data_hash (store (final o)) = old).
Proof.
  unfold_run. explore.
  all: intros Hret Hcall; try discriminate Hret.
  all: try solve [exfalso; revert Hcall; trace_facts; discriminate].
  all: chain; unfold hash_exists in *; cbn [existsb app data_hash].
  all: repeat match goal with
         | H : existsb _ (data_hash (store _)) = _ |- _ => rewrite H; clear H
         end.
  all: split; [do 3 eexists; conjuncts; first [reflexivity | eassumption]|].
  all: first [ left; reflexivity
             | right; left; reflexivity
             | right; right; left; reflexivity
             | right; right; right; reflexivity ].
Qed.

End Verification.

(** * The theorems at work on the sample data *)

#[local] Existing Instance Sample.externals.

Lemma rows_replaced_before_hash_touched_witness :
  trace Sample.first_run
  = firstn 9 (trace Sample.first_run)
    ++ EvExecute DeleteHashes :: skipn 10 (trace Sample.first_run)
  /\ modifies_hash DeleteHashes = true
  /\ exists qs ans es before after,
       getitem_tolist Sample.frame "questions" = inr qs /\
       getitem_tolist Sample.frame "answers" = inr ans /\
       embeddings Sample.self qs = inr es /\
       firstn 9 (trace Sample.first_run)
       = before
         ++ replace_events (insert_args qs ans es)
              {| faq_embeddings :=
                   faq_rows_from (faq_seq Sample.old_world)
                     (insert_args qs ans es);
                 data_hash := data_hash (store Sample.old_world) |}
         ++ after.
Proof.
  split; [vm_compute; reflexivity|]. split; [reflexivity|].
  apply (@rows_replaced_before_hash_touched Sample.externals Sample.self
           Sample.frame Sample.old_world
           (firstn 9 (trace Sample.first_run)) DeleteHashes
           (skipn 10 (trace Sample.first_run)));
    [vm_compute; reflexivity | reflexivity].
Defined.

Lemma second_run_changes_nothing_witness :
  result Sample.first_run = inr tt
  /\ faulted (trace Sample.first_run) = false
  /\ faulted (trace Sample.second_run) = false
  /\ result (check_data_hash Sample.self_provider_down
               (fingerprint Sample.frame) (final Sample.first_run))
     = inr true
  /\ result Sample.second_run = inr tt
  /\ store (final Sample.second_run) = store (final Sample.first_run)
  /\ writes_nothing (trace Sample.second_run) = true
  /\ calls_provider (trace Sample.second_run) = false.
Proof.
  split; [vm_compute; reflexivity|]. split; [vm_compute; reflexivity|].
  split; [vm_compute; reflexivity|].
  apply (@second_run_changes_nothing Sample.externals Sample.self
           Sample.self_provider_down Sample.frame Sample.old_world
           (final Sample.first_run));
    solve [vm_compute; reflexivity | reflexivity].
Defined.

Lemma provider_failure_writes_nothing_witness :
  getitem_tolist Sample.frame "questions"
  = inr ["What is 2+2?"; "Capital of France?"]%string
  /\ embeddings Sample.self_provider_down
       ["What is 2+2?"; "Capital of France?"]%string
     = inl "rate limit exceeded"%string
  /\ calls_provider
       (trace (process_local_file Sample.self_provider_down Sample.frame
                 Sample.old_world)) = true
  /\ result (process_local_file Sample.self_provider_down Sample.frame
               Sample.old_world)
     = inl (EmbeddingError "rate limit exceeded")
  /\ store (final (process_local_file Sample.self_provider_down Sample.frame
                     Sample.old_world))
     = Sample.old_tables.
Proof.
  split; [reflexivity|]. split; [reflexivity|].
  split; [vm_compute; reflexivity|].
  destruct (@provider_failure_writes_nothing Sample.externals
              Sample.self_provider_down Sample.frame Sample.old_world
              ["What is 2+2?"; "Capital of France?"]%string
              "rate limit exceeded"%string)
    as (Hr & Hs & _);
    [reflexivity | reflexivity | vm_compute; reflexivity |].
  split; [exact Hr | exact Hs].
Defined.

Lemma missing_columns_rejected_witness :
  (~ In "questions"%string (columns Sample.frame_without_answers)
   \/ ~ In "answers"%string (columns Sample.frame_without_answers))
  /\ result (check_data_hash Sample.self
               (fingerprint Sample.frame_without_answers) Sample.old_world)
     = inr false
  /\ result (process_local_file Sample.self Sample.frame_without_answers
               Sample.old_world)
     = inl missing_columns
  /\ store (final (process_local_file Sample.self
                     Sample.frame_without_answers Sample.old_world))
     = Sample.old_tables.
Proof.
  assert (Hlack : ~ In "questions"%string
                      (columns Sample.frame_without_answers)
                  \/ ~ In "answers"%string
                        (columns Sample.frame_without_answers)).
  { right. cbn. intros [H | []]. discriminate H. }
  split; [exact Hlack|]. split; [vm_compute; reflexivity|].
  destruct (@missing_columns_rejected Sample.externals Sample.self
              Sample.frame_without_answers Sample.old_world)
    as (Hr & Hs & _);
    [exact Hlack | vm_compute; reflexivity |].
  split; [exact Hr | exact Hs].
Defined.

Lemma check_data_hash_fails_open_witness :
  (hd None (faults Sample.old_world) = None
   /\ nth 1 (faults Sample.old_world) None = None
   /\ nth 2 (faults Sample.old_world) None = None
   /\ (exists r, In r (data_hash (store Sample.old_world))
                 /\ file_hash r = Some "0000"%string)
   /\ result (check_data_hash Sample.self (Some "0000"%string)
                Sample.old_world) = inr true
   /\ trace (check_data_hash Sample.self (Some "0000"%string)
               Sample.old_world)
      = [EvExecute (SelectHashExists (Some "0000"%string));
         EvPrint "Checking data hash in database"])
  /\
  (hd None (faults Sample.old_world_statement_fails) = None
   /\ nth 1 (faults Sample.old_world_statement_fails) None = None
   /\ nth 2 (faults Sample.old_world_statement_fails) None
      = Some "connection reset"%string
   /\ (exists r, In r (data_hash (store Sample.old_world_statement_fails))
                 /\ file_hash r = Some "0000"%string)
   /\ result (check_data_hash Sample.self (Some "0000"%string)
                Sample.old_world_statement_fails) = inr false
   /\ trace (check_data_hash Sample.self (Some "0000"%string)
               Sample.old_world_statement_fails)
      = [EvFault "connection reset";
         EvPrint "Error checking data hash: connection reset"]).
Proof.
  assert (Hrec : exists r, In r (data_hash Sample.old_tables)
                           /\ file_hash r = Some "0000"%string).
  { eexists. split; [left; reflexivity | reflexivity]. }
  split.
  - split; [reflexivity|]. split; [reflexivity|]. split; [reflexivity|].
    split; [exact Hrec|].
    pose proof (@check_data_hash_fails_open Sample.externals Sample.self
                  "0000"%string Sample.old_world eq_refl) as H.
    cbv zeta in H. destruct H as (_ & _ & Hthrough & _).
    destruct (Hthrough eq_refl eq_refl) as (Ht & Hr & _).
    split; [apply Hr; exact Hrec | exact Ht].
  - split; [reflexivity|]. split; [reflexivity|]. split; [reflexivity|].
    split; [exact Hrec|].
    pose proof (@check_data_hash_fails_open Sample.externals Sample.self
                  "0000"%string Sample.old_world_statement_fails eq_refl)
      as H.
    cbv zeta in H. destruct H as (_ & _ & _ & Hfails).
    apply (Hfails "connection reset"%string).
    right. split; reflexivity.
Defined.

Lemma one_hash_record_after_refresh_witness :
  result Sample.first_run = inr tt
  /\ faulted (trace Sample.first_run) = false
  /\ calls_provider (trace Sample.first_run) = true
  /\ data_hash (store (final Sample.first_run))
     = [{| hash_id := 2; file_hash := fingerprint Sample.frame |}].
Proof.
  split; [vm_compute; reflexivity|]. split; [vm_compute; reflexivity|].
  split; [vm_compute; reflexivity|].
  apply (@one_hash_record_after_refresh Sample.externals Sample.self
           Sample.frame Sample.old_world);
    vm_compute; reflexivity.
Defined.

Lemma fingerprint_is_deterministic_witness :
  pickle_dumps Sample.frame = pickle_dumps Sample.frame
  /\ result (calculate_file_hash Sample.self (pickle_dumps Sample.frame)
               Sample.old_world)
     = result (calculate_file_hash Sample.self_provider_down
                 (pickle_dumps Sample.frame) Sample.empty_world).
Proof.
  split; [reflexivity|].
  apply (@fingerprint_is_deterministic Sample.externals Sample.self
           Sample.self_provider_down Sample.frame Sample.frame
           Sample.old_world Sample.empty_world).
  reflexivity.
Defined.

Lemma rows_keep_provider_order_witness :
  getitem_tolist Sample.frame "questions"
  = inr ["What is 2+2?"; "Capital of France?"]%string
  /\ getitem_tolist Sample.frame "answers" = inr ["4"; "Paris"]%string
  /\ embeddings Sample.self ["What is 2+2?"; "Capital of France?"]%string
     = inr [Sample.toy_vector "What is 2+2?";
            Sample.toy_vector "Capital of France?"]
  /\ result Sample.first_run = inr tt
  /\ faulted (trace Sample.first_run) = false
  /\ calls_provider (trace Sample.first_run) = true
  /\ nth_error (faq_embeddings (store (final Sample.first_run))) 1
     = Some {| faq_id := 3; question := "Capital of France?";
               answer := "Paris"; embedding := [x43; x61] |}.
Proof.
  split; [reflexivity|]. split; [reflexivity|]. split; [reflexivity|].
  split; [vm_compute; reflexivity|]. split; [vm_compute; reflexivity|].
  split; [vm_compute; reflexivity|].
  refine (proj2 (@rows_keep_provider_order Sample.externals Sample.self
                   Sample.frame Sample.old_world
                   ["What is 2+2?"; "Capital of France?"]%string
                   ["4"; "Paris"]%string
                   [Sample.toy_vector "What is 2+2?";
                    Sample.toy_vector "Capital of France?"] 2
                   _ _ _ _ _ _ _ _ _)
            1 "Capital of France?"%string "Paris"%string
            (Sample.toy_vector "Capital of France?") _ _ _);
    solve [reflexivity | vm_compute; reflexivity].
Defined.

Lemma current_frame_is_left_alone_witness :
  has_required_columns Sample.frame_without_answers = false
  /\ hash_exists (fingerprint Sample.frame_without_answers)
       (store Sample.world_of_frame_without_answers) = true
  /\ faulted (trace (process_local_file Sample.self_provider_down
                       Sample.frame_without_answers
                       Sample.world_of_frame_without_answers)) = false
  /\ result (process_local_file Sample.self_provider_down
               Sample.frame_without_answers
               Sample.world_of_frame_without_answers) = inr tt
  /\ store (final (process_local_file Sample.self_provider_down
                     Sample.frame_without_answers
                     Sample.world_of_frame_without_answers))
     = store Sample.world_of_frame_without_answers.
Proof.
  split; [reflexivity|]. split; [vm_compute; reflexivity|].
  split; [vm_compute; reflexivity|].
  destruct (@current_frame_is_left_alone Sample.externals
              Sample.self_provider_down Sample.frame_without_answers
              Sample.world_of_frame_without_answers)
    as (Hr & Hs & _);
    [vm_compute; reflexivity | vm_compute; reflexivity |].
  split; [exact Hr | exact Hs].
Defined.

(** C9 does not hold as stated: a storage failure during the hash
    replacement does not end the refresh.  Here the
    [DELETE FROM data_hash] fails; [delete_all_data_hashes] prints the
    error and returns, [update_data_hash] then inserts and commits the
    new fingerprint, [process_local_file] returns normally, and the old
    hash record is still in the table next to the new one. *)
Lemma swallowed_delete_failure_counterexample :
  trace (delete_all_data_hashes Sample.self Sample.world_before_delete)
  = [EvFault "connection reset";
     EvPrint "Error deleting all data hashes: connection reset"]
  /\ result (delete_all_data_hashes Sample.self Sample.world_before_delete)
     = inr tt
  /\ trace Sample.run_delete_fails
     = firstn 9 (trace Sample.run_delete_fails)
       ++ trace (delete_all_data_hashes Sample.self
                   Sample.world_before_delete)
       ++ [EvExecute (InsertHash (fingerprint Sample.frame));
           EvPrint "Updating data hash in database";
           EvCommit (store (final Sample.run_delete_fails));
           EvPrint "Database updated with new data and data hash"]
  /\ result Sample.run_delete_fails = inr tt
  /\ map file_hash (data_hash (store (final Sample.run_delete_fails)))
     = [Some "0000"%string; fingerprint Sample.frame].
Proof.
  split; [vm_compute; reflexivity|]. split; [vm_compute; reflexivity|].
  split; [vm_compute; reflexivity|]. split; vm_compute; reflexivity.
Qed.

Lemma storage_failure_commits_nothing_witness :
  (faulted (trace (insert_data Sample.self
                     ["What is 2+2?"]%string ["4"]%string
                     [Sample.toy_vector "What is 2+2?"]
                     Sample.old_world_statement_fails)) = true
   /\ store (final (insert_data Sample.self
                      ["What is 2+2?"]%string ["4"]%string
                      [Sample.toy_vector "What is 2+2?"]
                      Sample.old_world_statement_fails))
      = Sample.old_tables)
  /\ (faulted (trace (process_local_file Sample.self Sample.frame
                        Sample.old_world_insert_fails)) = true
      /\ result (process_local_file Sample.self Sample.frame
                   Sample.old_world_insert_fails)
         = inl (DatabaseError "disk full")
      /\ store (final (process_local_file Sample.self Sample.frame
                         Sample.old_world_insert_fails))
         = Sample.old_tables)
  /\ (faulted (trace (delete_all_data_hashes Sample.self
                        Sample.old_world_statement_fails)) = true
      /\ hd None (faults Sample.old_world_statement_fails) = None
      /\ store (final (delete_all_data_hashes Sample.self
                         Sample.old_world_statement_fails))
         = Sample.old_tables
      /\ result (delete_all_data_hashes Sample.self
                   Sample.old_world_statement_fails) = inr tt
      /\ exists before msg,
           trace (delete_all_data_hashes Sample.self
                    Sample.old_world_statement_fails)
           = before
             ++ [EvFault msg;
                 EvPrint ("Error deleting all data hashes: " ++ msg)])
  /\ (faulted (trace (update_data_hash Sample.self (Some "ae85"%string)
                        Sample.old_world_statement_fails)) = true
      /\ hd None (faults Sample.old_world_statement_fails) = None
      /\ store (final (update_data_hash Sample.self (Some "ae85"%string)
                         Sample.old_world_statement_fails))
         = Sample.old_tables
      /\ result (update_data_hash Sample.self (Some "ae85"%string)
                   Sample.old_world_statement_fails) = inr tt
      /\ exists before msg,
           trace (update_data_hash Sample.self (Some "ae85"%string)
                    Sample.old_world_statement_fails)
           = before
             ++ [EvFault msg; EvPrint ("Error updating data hash: " ++ msg)])
  /\ (faulted (trace (delete_all_data_hashes Sample.self
                        Sample.world_before_delete)) = true
      /\ hd None (faults Sample.world_before_delete) = None
      /\ result (process_local_file Sample.self Sample.frame
                   Sample.old_world_delete_fails) = inr tt
      /\ trace (process_local_file Sample.self Sample.frame
                  Sample.old_world_delete_fails)
         = trace (check_data_hash Sample.self (fingerprint Sample.frame)
                    Sample.old_world_delete_fails)
           ++ [EvPrint "Data hash mismatch found. Updating database...";
               EvEmbed ["What is 2+2?"; "Capital of France?"]%string]
           ++ trace (insert_data Sample.self
                       ["What is 2+2?"; "Capital of France?"]%string
                       ["4"; "Paris"]%string
                       [Sample.toy_vector "What is 2+2?";
                        Sample.toy_vector "Capital of France?"]
                       (final (check_data_hash Sample.self
                                 (fingerprint Sample.frame)
                                 Sample.old_world_delete_fails)))
           ++ trace (delete_all_data_hashes Sample.self
                       Sample.world_before_delete)
           ++ trace (update_data_hash Sample.self
                       (fingerprint Sample.frame)
                       (final (delete_all_data_hashes Sample.self
                                 Sample.world_before_delete)))
           ++ [EvPrint "Database updated with new data and data hash"]).
Proof.
  destruct (@storage_failure_commits_nothing Sample.externals Sample.self)
    as (Hinsert & Hrun & Hdelete & Hupdate & Hgoes_on).
  split; [|split; [|split; [|split]]].
  - split; [vm_compute; reflexivity|].
    destruct (Hinsert ["What is 2+2?"]%string ["4"]%string
                [Sample.toy_vector "What is 2+2?"]
                Sample.old_world_statement_fails)
      as (_ & Hs & _); [vm_compute; reflexivity|].
    exact Hs.
  - split; [vm_compute; reflexivity|].
    destruct (Hrun Sample.frame Sample.old_world_insert_fails
                ["What is 2+2?"; "Capital of France?"]%string
                ["4"; "Paris"]%string
                [Sample.toy_vector "What is 2+2?";
                 Sample.toy_vector "Capital of France?"])
      as (Hr & Hs & _); try (vm_compute; reflexivity).
    split; [rewrite Hr; vm_compute; reflexivity | exact Hs].
  - split; [vm_compute; reflexivity|]. split; [reflexivity|].
    destruct (Hdelete Sample.old_world_statement_fails)
      as (Hs & _ & Hr); [vm_compute; reflexivity|].
    split; [exact Hs | apply Hr; reflexivity].
  - split; [vm_compute; reflexivity|]. split; [reflexivity|].
    destruct (Hupdate (Some "ae85"%string) Sample.old_world_statement_fails)
      as (Hs & _ & Hr); [vm_compute; reflexivity|].
    split; [exact Hs | apply Hr; reflexivity].
  - split; [vm_compute; reflexivity|]. split; [vm_compute; reflexivity|].
    destruct (Hgoes_on Sample.frame Sample.old_world_delete_fails
                ["What is 2+2?"; "Capital of France?"]%string
                ["4"; "Paris"]%string
                [Sample.toy_vector "What is 2+2?";
                 Sample.toy_vector "Capital of France?"])
      as (Hr & _ & Ht & _);
      try solve [vm_compute; reflexivity | left; vm_compute; reflexivity].
    split; [exact Hr | exact Ht].
Defined.

(** The end-to-end example of the specification: on an empty store the
    first run calls the provider once with both questions, inserts two
    rows and one hash record; the second run, on the same frame, does
    not call the provider and changes nothing. *)
Example end_to_end :
  let run1 := process_local_file Sample.self Sample.frame Sample.empty_world in
  let run2 := process_local_file Sample.self Sample.frame (final run1) in
  filter is_embed (trace run1)
  = [EvEmbed ["What is 2+2?"; "Capital of France?"]%string]
  /\ map question (faq_embeddings (store (final run1)))
     = ["What is 2+2?"; "Capital of France?"]%string
  /\ map answer (faq_embeddings (store (final run1)))
     = ["4"; "Paris"]%string
  /\ map file_hash (data_hash (store (final run1)))
     = [fingerprint Sample.frame]
  /\ calls_provider (trace run2) = false
  /\ writes_nothing (trace run2) = true
  /\ store (final run2) = store (final run1).
Proof.
  cbv zeta. split; [vm_compute; reflexivity|].
  split; [vm_compute; reflexivity|]. split; [vm_compute; reflexivity|].
  split; [vm_compute; reflexivity|]. split; [vm_compute; reflexivity|].
  split; vm_compute; reflexivity.
Qed.

(** * The further properties at work on the sample data *)

Lemma connection_is_always_released_witness :
  txn Sample.old_world_delete_fails = Idle
  /\ txn (final (process_local_file Sample.self Sample.frame
                   Sample.old_world_delete_fails)) = Idle.
Proof.
  split; [reflexivity|].
  apply (proj2 (@connection_is_always_released Sample.externals Sample.self)
           Sample.frame Sample.old_world_delete_fails).
  reflexivity.
Defined.

Lemma process_local_file_keeps_keys_valid_witness :
  keys_valid Sample.old_world_delete_fails
  /\ keys_valid (final (process_local_file Sample.self Sample.frame
                          Sample.old_world_delete_fails)).
Proof.
  assert (Hvalid : keys_valid Sample.old_world_delete_fails).
  { unfold keys_valid. cbn.
    repeat split; repeat constructor; cbn; intuition lia. }
  split; [exact Hvalid|].
  apply (@process_local_file_keeps_keys_valid Sample.externals Sample.self
           Sample.frame Sample.old_world_delete_fails).
  exact Hvalid.
Defined.

Lemma short_answer_truncates_rows_witness :
  getitem_tolist Sample.frame "questions"
  = inr ["What is 2+2?"; "Capital of France?"]%string
  /\ getitem_tolist Sample.frame "answers" = inr ["4"; "Paris"]%string
  /\ embeddings Sample.self_short_answer
       ["What is 2+2?"; "Capital of France?"]%string
     = inr [Sample.toy_vector "What is 2+2?"]
  /\ result (process_local_file Sample.self_short_answer Sample.frame
               Sample.old_world) = inr tt
  /\ faulted (trace (process_local_file Sample.self_short_answer
                       Sample.frame Sample.old_world)) = false
  /\ calls_provider (trace (process_local_file Sample.self_short_answer
                              Sample.frame Sample.old_world)) = true
  /\ map question
       (faq_embeddings
          (store (final (process_local_file Sample.self_short_answer
                           Sample.frame Sample.old_world))))
     = ["What is 2+2?"]%string
  /\ hash_exists (fingerprint Sample.frame)
       (store (final (process_local_file Sample.self_short_answer
                        Sample.frame Sample.old_world))) = true.
Proof.
  split; [reflexivity|]. split; [reflexivity|]. split; [reflexivity|].
  split; [vm_compute; reflexivity|]. split; [vm_compute; reflexivity|].
  split; [vm_compute; reflexivity|].
  destruct (@short_answer_truncates_rows Sample.externals
              Sample.self_short_answer Sample.frame Sample.old_world
              ["What is 2+2?"; "Capital of France?"]%string
              ["4"; "Paris"]%string
              [Sample.toy_vector "What is 2+2?"])
    as (Hq & _ & Hh); try (vm_compute; reflexivity).
  split; [exact Hq | exact Hh].
Defined.

Lemma recorded_fingerprint_vouches_for_rows_witness :
  hash_exists (fingerprint Sample.frame) (store Sample.old_world) = false
  /\ hash_exists (fingerprint Sample.frame)
       (store (final Sample.run_delete_fails)) = true
  /\ exists qs ans es,
       getitem_tolist Sample.frame "questions" = inr qs /\
       getitem_tolist Sample.frame "answers" = inr ans /\
       embeddings Sample.self qs = inr es /\
       faq_embeddings (store (final Sample.run_delete_fails))
       = faq_rows_from 2 (insert_args qs ans es).
Proof.
  split; [vm_compute; reflexivity|]. split; [vm_compute; reflexivity|].
  apply (@recorded_fingerprint_vouches_for_rows Sample.externals Sample.self
           Sample.frame Sample.old_world_delete_fails);
    vm_compute; reflexivity.
Defined.

Lemma failed_check_forces_refresh_witness :
  hash_exists (fingerprint Sample.frame)
    (store Sample.world_of_frame_check_fails) = true
  /\ hd None (faults Sample.world_of_frame_check_fails) = None
  /\ has_required_columns Sample.frame = true
  /\ faulted (trace (check_data_hash Sample.self (fingerprint Sample.frame)
                       Sample.world_of_frame_check_fails)) = true
  /\ exists before after,
       trace (process_local_file Sample.self Sample.frame
                Sample.world_of_frame_check_fails)
       = before
         ++ EvPrint "Data hash mismatch found. Updating database..."
         :: EvEmbed ["What is 2+2?"; "Capital of France?"]%string :: after.
Proof.
  split; [vm_compute; reflexivity|]. split; [reflexivity|].
  split; [reflexivity|]. split; [vm_compute; reflexivity|].
  apply (@failed_check_forces_refresh Sample.externals Sample.self
           Sample.frame Sample.world_of_frame_check_fails
           ["What is 2+2?"; "Capital of France?"]%string
           ["4"; "Paris"]%string);
    solve [reflexivity | vm_compute; reflexivity].
Defined.

Lemma pool_failure_is_not_caught_witness :
  hd None (faults Sample.old_world_no_connection)
  = Some "connection pool exhausted"%string
  /\ delete_all_data_hashes Sample.self Sample.old_world_no_connection
     = Outcome (inl (DatabaseError "connection pool exhausted"))
         Sample.old_world [EvFault "connection pool exhausted"]
  /\ process_local_file Sample.self Sample.frame
       Sample.old_world_no_connection
     = Outcome (inl (DatabaseError "connection pool exhausted"))
         Sample.old_world [EvFault "connection pool exhausted"].
Proof.
  split; [reflexivity|].
  destruct (@pool_failure_is_not_caught Sample.externals Sample.self
              Sample.old_world_no_connection
              "connection pool exhausted"%string eq_refl)
    as (_ & _ & Hd & _ & Hp).
  split; [exact Hd | exact (Hp Sample.frame)].
Defined.

Lemma hash_record_round_trip_witness :
  faulted (trace (update_data_hash Sample.self (Some "ae85"%string)
                    Sample.old_world)) = false
  /\ faulted (trace (check_data_hash Sample.self (Some "ae85"%string)
                       (final (update_data_hash Sample.self
                                 (Some "ae85"%string) Sample.old_world))))
     = false
  /\ result (check_data_hash Sample.self (Some "ae85"%string)
               (final (update_data_hash Sample.self (Some "ae85"%string)
                         Sample.old_world))) = inr true.
Proof.
  split; [vm_compute; reflexivity|]. split; [vm_compute; reflexivity|].
  apply (proj1 (@hash_record_round_trip Sample.externals Sample.self
                  "ae85"%string Sample.old_world));
    vm_compute; reflexivity.
Defined.

Lemma update_data_hash_is_conflict_safe_witness :
  hash_exists (Some "0000"%string) (store Sample.old_world) = true
  /\ faulted (trace (update_data_hash Sample.self (Some "0000"%string)
                       Sample.old_world)) = false
  /\ result (update_data_hash Sample.self (Some "0000"%string)
               Sample.old_world) = inr tt
  /\ store (final (update_data_hash Sample.self (Some "0000"%string)
                     Sample.old_world)) = Sample.old_tables.
Proof.
  split; [reflexivity|]. split; [vm_compute; reflexivity|].
  apply (@update_data_hash_is_conflict_safe Sample.externals Sample.self
           "0000"%string Sample.old_world);
    [reflexivity | vm_compute; reflexivity].
Defined.

Lemma repeated_label_is_not_caught_by_the_check_witness :
  result (check_data_hash Sample.self
            (fingerprint Sample.frame_repeated_label) Sample.old_world)
  = inr false
  /\ In "questions"%string (columns Sample.frame_repeated_label)
  /\ In "answers"%string (columns Sample.frame_repeated_label)
  /\ 2 <= count_occ string_dec (columns Sample.frame_repeated_label)
            "questions"%string
  /\ has_required_columns Sample.frame_repeated_label = true
  /\ result (process_local_file Sample.self Sample.frame_repeated_label
               Sample.old_world)
     = inl (AttributeError "'DataFrame' object has no attribute 'tolist'")
  /\ store (final (process_local_file Sample.self
                     Sample.frame_repeated_label Sample.old_world))
     = Sample.old_tables.
Proof.
  assert (Hin : In "questions"%string (columns Sample.frame_repeated_label))
    by (cbn; auto).
  assert (Hin' : In "answers"%string (columns Sample.frame_repeated_label))
    by (cbn; auto).
  assert (Hrep : 2 <= count_occ string_dec
                        (columns Sample.frame_repeated_label)
                        "questions"%string)
    by (vm_compute; lia).
  split; [vm_compute; reflexivity|]. split; [exact Hin|].
  split; [exact Hin'|]. split; [exact Hrep|].
  destruct (@repeated_label_is_not_caught_by_the_check Sample.externals
              Sample.self Sample.frame_repeated_label Sample.old_world)
    as (Hcols & Hres & Hstore & _);
    [vm_compute; reflexivity | exact Hin | exact Hin' | left; exact Hrep |].
  split; [exact Hcols|]. split; [exact Hres | exact Hstore].
Defined.

Lemma import_needs_only_the_api_key_witness :
  Sample.environment "OPENAI_API_KEY"%string = Some "sk-test"%string
  /\ "sk-test"%string <> EmptyString
  /\ hd None (faults Sample.old_world) = None
  /\ result (import_module Sample.environment Sample.old_world)
     = inr (get_db_config Sample.environment).
Proof.
  split; [reflexivity|]. split; [discriminate|]. split; [reflexivity|].
  apply (proj1 (proj2 (import_needs_only_the_api_key Sample.environment
                         Sample.old_world)) "sk-test"%string);
    [reflexivity | discriminate | reflexivity].
Defined.

Lemma setup_database_creates_or_keeps_witness :
  result (setup_database Sample.self Sample.half_schema Sample.old_world)
  = inr (create_tables_if_not_exist Sample.half_schema)
  /\ hash_table Sample.half_schema = Some (data_hash Sample.old_tables)
  /\ hash_table (create_tables_if_not_exist Sample.half_schema)
     = Some (data_hash Sample.old_tables).
Proof.
  split; [vm_compute; reflexivity|]. split; [reflexivity|].
  destruct (proj1 (@setup_database_creates_or_keeps Sample.externals
                     Sample.self Sample.half_schema Sample.old_world)
              (create_tables_if_not_exist Sample.half_schema))
    as (_ & _ & Hkeep); [vm_compute; reflexivity|].
  apply Hkeep. reflexivity.
Defined.

Lemma setup_database_is_idempotent_witness :
  result (setup_database Sample.self Sample.half_schema Sample.old_world)
  = inr (create_tables_if_not_exist Sample.half_schema)
  /\ faulted (trace (setup_database Sample.self Sample.half_schema
                       Sample.old_world)) = false
  /\ result (setup_database Sample.self
               (create_tables_if_not_exist Sample.half_schema)
               Sample.world_of_frame_check_fails)
     = inr (create_tables_if_not_exist
              (create_tables_if_not_exist Sample.half_schema))
  /\ create_tables_if_not_exist
       (create_tables_if_not_exist Sample.half_schema)
     = create_tables_if_not_exist Sample.half_schema.
Proof.
  split; [vm_compute; reflexivity|]. split; [vm_compute; reflexivity|].
  split; [vm_compute; reflexivity|].
  apply (@setup_database_is_idempotent Sample.externals Sample.self
           Sample.half_schema Sample.old_world
           Sample.world_of_frame_check_fails);
    vm_compute; reflexivity.
Defined.

Lemma every_commit_has_the_new_rows_witness :
  In (EvCommit (store (final (process_local_file Sample.self Sample.frame
                                Sample.old_world))))
    (trace (process_local_file Sample.self Sample.frame Sample.old_world))
  /\ exists qs ans es,
       getitem_tolist Sample.frame "questions" = inr qs /\
       getitem_tolist Sample.frame "answers" = inr ans /\
       embeddings Sample.self qs = inr es /\
       faq_embeddings
         (store (final (process_local_file Sample.self Sample.frame
                          Sample.old_world)))
       = faq_rows_from (faq_seq Sample.old_world)
           (insert_args qs ans es).
Proof.
  assert (Hin : In (EvCommit
                      (store (final (process_local_file Sample.self
                                       Sample.frame Sample.old_world))))
                  (trace (process_local_file Sample.self Sample.frame
                            Sample.old_world))).
  { vm_compute. repeat first [left; reflexivity | right]. }
  split; [exact Hin|].
  exact (@every_commit_has_the_new_rows Sample.externals Sample.self
           Sample.frame Sample.old_world _ Hin).
Defined.

Lemma normal_return_after_refresh_witness :
  result (process_local_file Sample.self Sample.frame
            Sample.old_world_hash_methods_fail) = inr tt
  /\ calls_provider (trace (process_local_file Sample.self Sample.frame
                              Sample.old_world_hash_methods_fail)) = true
  /\ data_hash (store (final (process_local_file Sample.self Sample.frame
                                Sample.old_world_hash_methods_fail)))
     = data_hash Sample.old_tables
  /\ exists qs ans es,
       getitem_tolist Sample.frame "questions" = inr qs /\
       getitem_tolist Sample.frame "answers" = inr ans /\
       embeddings Sample.self qs = inr es /\
       faq_embeddings
         (store (final (process_local_file Sample.self Sample.frame
                          Sample.old_world_hash_methods_fail)))
       = faq_rows_from (faq_seq Sample.old_world_hash_methods_fail)
           (insert_args qs ans es).
Proof.
  split; [vm_compute; reflexivity|]. split; [vm_compute; reflexivity|].
  split; [vm_compute; reflexivity|].
  apply (@normal_return_after_refresh Sample.externals Sample.self
           Sample.frame Sample.old_world_hash_methods_fail);
    vm_compute; reflexivity.
Defined.
